(** * GazeSync: the control layer of [main.py]

    A shallow embedding of the head-gaze / voice control logic of
    [src/main.py]: the scroll debouncer ([process_scroll]), the
    calibration manager and gaze-zone evaluator of the main video loop,
    the sleep monitor, and the voice command dispatcher
    ([voice_command_listener]).

    Modelling conventions.
    - Timestamps ([time.time()]) are exact rationals, in seconds.
    - A detected face is given by the pixel position of each landmark,
      that is the pair [(int(lm.landmark[idx].x * w), int(lm.landmark[idx].y * h))]
      the script computes wherever it reads a landmark.
    - [pink_boxes] is a finite map from landmark index to a box; reading a
      missing key is the [KeyError] of Python, modelled by [None].
    - The two threads (video loop, voice listener) are interleaved at the
      granularity of one processed frame or one dispatched utterance.
    - A transcript is a string of ASCII characters. *)

From Stdlib Require Import ZArith QArith Lqa Bool List String Ascii Lia.
From stdpp Require Import gmap.
Import ListNotations.

Local Open Scope Z_scope.

(** ** Actions sent to the input simulator *)

Inductive Direction := Left | Right | Up | Down.

Inductive ZoomDir := ZoomIn | ZoomOut | ZoomReset.

(** One call of [scroll_once(direction)] or of [zoom_control(direction)]. *)
Inductive Action :=
| Scroll (d : Direction)
| Zoom (z : ZoomDir).

Definition Direction_eqb (a b : Direction) : bool :=
  match a, b with
  | Left, Left | Right, Right | Up, Up | Down, Down => true
  | _, _ => false
  end.

Definition is_scroll (d : Direction) (a : Action) : bool :=
  match a with
  | Scroll d' => Direction_eqb d d'
  | Zoom _ => false
  end.

(** Number of scroll actions for direction [d] in a list of actions. *)
Definition scrolls (d : Direction) (acts : list Action) : nat :=
  List.length (List.filter (is_scroll d) acts).

(** ** Scroll debouncer *)

(** The per-direction dictionary [{"start_time": ..., "last_scroll_time": ...}]. *)
Record DirState := mkDirState {
  start_time : option Q;
  last_scroll_time : Q
}.

(** [scroll_state], a dictionary with the four fixed keys. *)
Record ScrollState := mkScrollState {
  ss_left : DirState;
  ss_right : DirState;
  ss_up : DirState;
  ss_down : DirState
}.

Definition get_dir (d : Direction) (ss : ScrollState) : DirState :=
  match d with
  | Left => ss_left ss
  | Right => ss_right ss
  | Up => ss_up ss
  | Down => ss_down ss
  end.

Definition set_dir (d : Direction) (v : DirState) (ss : ScrollState) : ScrollState :=
  match d with
  | Left => mkScrollState v (ss_right ss) (ss_up ss) (ss_down ss)
  | Right => mkScrollState (ss_left ss) v (ss_up ss) (ss_down ss)
  | Up => mkScrollState (ss_left ss) (ss_right ss) v (ss_down ss)
  | Down => mkScrollState (ss_left ss) (ss_right ss) (ss_up ss) v
  end.

Definition idle : DirState := mkDirState None 0%Q.

Definition scroll_state_init : ScrollState := mkScrollState idle idle idle idle.

Definition scroll_delay : Q := (3 # 10)%Q.
Definition sustain_threshold : Q := 1%Q.

(** [process_scroll(direction, condition)], with the globals it reads
    ([scroll_enabled], [current_time]) and the dictionary it mutates
    ([scroll_state]) made explicit. *)
Definition process_scroll (scroll_enabled : bool) (current_time : Q)
    (direction : Direction) (condition : bool) (ss : ScrollState)
  : ScrollState * list Action :=
  let state := get_dir direction ss in
  if negb scroll_enabled then (ss, [])
  else if condition then
    match start_time state with
    | None =>
        (set_dir direction (mkDirState (Some current_time) current_time) ss,
         [Scroll direction])
    | Some st =>
        if Qle_bool sustain_threshold (current_time - st)
           && Qle_bool scroll_delay (current_time - last_scroll_time state)
        then (set_dir direction (mkDirState (Some st) current_time) ss,
              [Scroll direction])
        else (ss, [])
    end
  else (set_dir direction (mkDirState None (last_scroll_time state)) ss, []).

(** The four trigger conditions of one frame. *)
Record Conds := mkConds {
  c_left : bool;
  c_right : bool;
  c_up : bool;
  c_down : bool
}.

Definition cond_of (d : Direction) (c : Conds) : bool :=
  match d with
  | Left => c_left c
  | Right => c_right c
  | Up => c_up c
  | Down => c_down c
  end.

(** The four call sites, in the order of the script: left, right, up, down. *)
Definition scroll_frame (scroll_enabled : bool) (current_time : Q) (c : Conds)
    (ss : ScrollState) : ScrollState * list Action :=
  let '(ss1, a1) := process_scroll scroll_enabled current_time Left (c_left c) ss in
  let '(ss2, a2) := process_scroll scroll_enabled current_time Right (c_right c) ss1 in
  let '(ss3, a3) := process_scroll scroll_enabled current_time Up (c_up c) ss2 in
  let '(ss4, a4) := process_scroll scroll_enabled current_time Down (c_down c) ss3 in
  (ss4, a1 ++ a2 ++ a3 ++ a4).

(** A run of the debouncer over successive frames, each given by its
    [current_time] and its four conditions, with [scroll_enabled] fixed. *)
Fixpoint scroll_run (scroll_enabled : bool) (frames : list (Q * Conds))
    (ss : ScrollState) : ScrollState * list Action :=
  match frames with
  | [] => (ss, [])
  | (t, c) :: rest =>
      let '(ss1, a1) := scroll_frame scroll_enabled t c ss in
      let '(ss2, a2) := scroll_run scroll_enabled rest ss1 in
      (ss2, a1 ++ a2)
  end.

(** ** Calibrated zones and the gaze-zone evaluator *)

(** A calibrated zone, the tuple [(left, right, top, bottom)]. *)
Definition Box : Type := Z * Z * Z * Z.

Definition box_left (b : Box) : Z := let '(l, _, _, _) := b in l.
Definition box_right (b : Box) : Z := let '(_, r, _, _) := b in r.
Definition box_top (b : Box) : Z := let '(_, _, t, _) := b in t.
Definition box_bottom (b : Box) : Z := let '(_, _, _, b') := b in b'.

(** The landmarks of a detected face: landmark index to pixel position. *)
Definition Landmarks : Type := Z -> Z * Z.

Definition forehead_idx : Z := 10.
Definition chin_idx : Z := 152.
Definition tracked_idxs_x : list Z := [forehead_idx; chin_idx; 168].

Definition dead_zone : Z := 20.
Definition calibration_hold_time : Q := 2%Q.
Definition recalibration_hold_time : Q := 3%Q.
Definition sleep_trigger_duration : Q := 5%Q.

(** The box written for a landmark at pixel position [(lx, ly)]. *)
Definition zone_around (p : Z * Z) : Box :=
  let '(lx, ly) := p in
  (lx - dead_zone, lx + dead_zone, ly - dead_zone, ly + dead_zone).

(** The loop [for idx in tracked_idxs_x: pink_boxes[idx] = (...)]. *)
Definition snapshot (lm : Landmarks) (pb : gmap Z Box) : gmap Z Box :=
  fold_left (fun m idx => <[idx := zone_around (lm idx)]> m) tracked_idxs_x pb.

(** [min] and [max] of a Python list; the empty list raises. *)
Definition list_min (l : list Z) : option Z :=
  match l with
  | [] => None
  | x :: xs => Some (fold_left Z.min xs x)
  end.

Definition list_max (l : list Z) : option Z :=
  match l with
  | [] => None
  | x :: xs => Some (fold_left Z.max xs x)
  end.

(** [int(np.mean(l))] for a list of integers: the mean, truncated toward zero. *)
Definition mean_int (l : list Z) : Z :=
  Z.quot (fold_left Z.add l 0) (Z.of_nat (List.length l)).

(** Lines 255-262 and 285-296 of the script: the box of every tracked
    landmark is read (drawing loop), then the four conditions are computed. *)
Definition gaze_conditions (pb : gmap Z Box) (lm : Landmarks) : option Conds :=
  let current_points := List.map lm tracked_idxs_x in
  let avg_x := mean_int (List.map fst current_points) in
  boxes ← mapM (fun idx => pb !! idx) tracked_idxs_x;
  overall_left ← list_min (List.map box_left boxes);
  overall_right ← list_max (List.map box_right boxes);
  let forehead_y := snd (lm forehead_idx) in
  let chin_y := snd (lm chin_idx) in
  fb ← pb !! forehead_idx;
  cb ← pb !! chin_idx;
  let forehead_top := box_top fb in
  let chin_bottom := box_bottom cb in
  Some (mkConds (avg_x <? overall_left) (avg_x >? overall_right)
                (forehead_y <? forehead_top) (chin_y >? chin_bottom)).

Definition in_box (p : Z * Z) (b : Box) : bool :=
  let '(px, py) := p in
  let '(l, r, top, bottom) := b in
  (l <=? px) && (px <=? r) && (top <=? py) && (py <=? bottom).

(** The loop of [is_all_inside_boxes], with its early [return False]. *)
Fixpoint inside_loop (pb : gmap Z Box) (lm : Landmarks) (idxs : list Z)
  : option bool :=
  match idxs with
  | [] => Some true
  | idx :: rest =>
      b ← pb !! idx;
      if negb (in_box (lm idx) b) then Some false else inside_loop pb lm rest
  end.

Definition is_all_inside_boxes (pb : gmap Z Box) (lm : Landmarks) : option bool :=
  inside_loop pb lm tracked_idxs_x.

(** ** Global state and the main video loop *)

Record State := mkState {
  scroll_enabled : bool;
  recalibrated : bool;
  calibration_start : option Q;
  recalibration_timer_start : option Q;
  pink_boxes : gmap Z Box;
  sleep_mode : bool;
  last_face_seen_time : Q;
  scroll_state : ScrollState
}.

Definition set_scroll_enabled (v : bool) (s : State) : State :=
  mkState v (recalibrated s) (calibration_start s) (recalibration_timer_start s)
          (pink_boxes s) (sleep_mode s) (last_face_seen_time s) (scroll_state s).
Definition set_recalibrated (v : bool) (s : State) : State :=
  mkState (scroll_enabled s) v (calibration_start s) (recalibration_timer_start s)
          (pink_boxes s) (sleep_mode s) (last_face_seen_time s) (scroll_state s).
Definition set_calibration_start (v : option Q) (s : State) : State :=
  mkState (scroll_enabled s) (recalibrated s) v (recalibration_timer_start s)
          (pink_boxes s) (sleep_mode s) (last_face_seen_time s) (scroll_state s).
Definition set_recalibration_timer_start (v : option Q) (s : State) : State :=
  mkState (scroll_enabled s) (recalibrated s) (calibration_start s) v
          (pink_boxes s) (sleep_mode s) (last_face_seen_time s) (scroll_state s).
Definition set_pink_boxes (v : gmap Z Box) (s : State) : State :=
  mkState (scroll_enabled s) (recalibrated s) (calibration_start s)
          (recalibration_timer_start s) v (sleep_mode s) (last_face_seen_time s)
          (scroll_state s).
Definition set_sleep_mode (v : bool) (s : State) : State :=
  mkState (scroll_enabled s) (recalibrated s) (calibration_start s)
          (recalibration_timer_start s) (pink_boxes s) v (last_face_seen_time s)
          (scroll_state s).
Definition set_last_face_seen_time (v : Q) (s : State) : State :=
  mkState (scroll_enabled s) (recalibrated s) (calibration_start s)
          (recalibration_timer_start s) (pink_boxes s) (sleep_mode s) v
          (scroll_state s).
Definition set_scroll_state (v : ScrollState) (s : State) : State :=
  mkState (scroll_enabled s) (recalibrated s) (calibration_start s)
          (recalibration_timer_start s) (pink_boxes s) (sleep_mode s)
          (last_face_seen_time s) v.

(** The state at the first iteration of the video loop; [t0] is the value
    of [time.time()] when [last_face_seen_time] is initialised. *)
Definition init_state (t0 : Q) : State :=
  mkState true false None None ∅ false t0 scroll_state_init.

(** What one successfully read frame provides: [current_time], the result
    of the face mesh ([None] when [multi_face_landmarks] is empty), and
    [clock], the later [time.time()] read by the calibration branch.
    A failed read ([not ret]) skips the iteration and touches nothing. *)
Record Frame := mkFrame {
  current_time : Q;
  face : option Landmarks;
  clock : Q
}.

(** The calibration branch, lines 238-250. *)
Definition calibrate (f : Frame) (lm : Landmarks) (s : State) : State :=
  match calibration_start s with
  | None => set_calibration_start (Some (clock f)) s
  | Some cs =>
      if Qle_bool calibration_hold_time (clock f - cs)
      then set_calibration_start None
             (set_recalibrated true
                (set_pink_boxes (snapshot lm (pink_boxes s)) s))
      else s
  end.

(** The automatic recalibration, lines 299-314, given the result of
    [is_all_inside_boxes]. *)
Definition auto_recalibrate (f : Frame) (lm : Landmarks) (inside : bool)
    (s : State) : State :=
  if inside then
    match recalibration_timer_start s with
    | None => set_recalibration_timer_start (Some (current_time f)) s
    | Some rs =>
        if Qle_bool recalibration_hold_time (current_time f - rs)
        then set_recalibration_timer_start None
               (set_pink_boxes (snapshot lm (pink_boxes s)) s)
        else s
    end
  else set_recalibration_timer_start None s.

(** The tracking branch, lines 253-314. *)
Definition track (f : Frame) (lm : Landmarks) (s : State)
  : option (State * list Action) :=
  conds ← gaze_conditions (pink_boxes s) lm;
  let '(ss, acts) :=
    scroll_frame (scroll_enabled s) (current_time f) conds (scroll_state s) in
  inside ← is_all_inside_boxes (pink_boxes s) lm;
  Some (auto_recalibrate f lm inside (set_scroll_state ss s), acts).

(** The sleep entry, lines 316-320. *)
Definition sleep_check (f : Frame) (s : State) : State :=
  if negb (Qle_bool (current_time f - last_face_seen_time s) sleep_trigger_duration)
     && negb (sleep_mode s)
  then set_sleep_mode true s
  else s.

(** One iteration of the video loop on a frame that was read; [None] is
    the [KeyError] of a missing [pink_boxes] entry. *)
Definition frame_step (s : State) (f : Frame) : option (State * list Action) :=
  match face f with
  | Some lm =>
      let s1 := set_last_face_seen_time (current_time f) s in
      let s2 := if sleep_mode s1 then set_sleep_mode false s1 else s1 in
      if negb (recalibrated s2) then Some (calibrate f lm s2, [])
      else track f lm s2
  | None => Some (sleep_check f s, [])
  end.

(** ** Voice command dispatcher *)

(** [word in command] on Python strings: substring containment. *)
Fixpoint contains (word command : string) : bool :=
  match command with
  | EmptyString => String.prefix word EmptyString
  | String _ rest => String.prefix word command || contains word rest
  end.

(** [any(word in command for word in words)]. *)
Definition any_in (words : list string) (command : string) : bool :=
  existsb (fun word => contains word command) words.

Definition lower_ascii (c : ascii) : ascii :=
  let n := nat_of_ascii c in
  if (65 <=? n)%nat && (n <=? 90)%nat then ascii_of_nat (n + 32) else c.

(** [str.lower()] on ASCII text. *)
Fixpoint lower (s : string) : string :=
  match s with
  | EmptyString => EmptyString
  | String c rest => String (lower_ascii c) (lower rest)
  end.

Definition stop_words : list string :=
  ["stop"; "pause"; "dop"; "top"; "was"; "cause"]%string.

Definition start_words : list string :=
  ["start"; "resume"; "dark"; "star"; "st"; "stat"; "that"; "presume"]%string.

Definition recalibrate_words : list string :=
  ["situation"; "sitting"; "acqusition"; "position"; "reposition"; "barate";
   "deliberately"; "deliberate"; "calibrate"; "celebrate"; "gallery";
   "recallibrate"; "recal"; "call"; "callibrate"; "bread"; "break"; "brate";
   "rate"; "ate"; "at"; "eat"; "libe"; "libre"; "lib"]%string.

Definition zoom_in_words : list string :=
  ["zoom in"; "soon in"; "room in"; "gum in"; "go in"; "do min"; "boomin";
   "no mean"; "domain"; "you mean"; "zoomin"; "zooming"]%string.

Definition zoom_out_words : list string :=
  ["zoom out"; "soon out"; "room out"; "doom out"; "go out"; "boom out";
   "zoomout"]%string.

Definition zoom_reset_words : list string :=
  ["reset zoom"; "default zoom"; "normal zoom"; "zoom reset"; "zoom default";
   "zoom normal"; "original"; "reset"; "default"; "default view";
   "reset view"; "research zoom"; "default real"; "said view";
   "research you"]%string.

Definition up_words : list string :=
  ["up"; "cup"; "hub"; "pup"; "sub"; "hup"; "dup"; "tup"; "sup"; "zup"; "bup";
   "op"; "pop"]%string.

Definition down_words : list string :=
  ["down"; "drown"; "downry"; "dong"; "lawn"; "lown"; "don't"; "don"; "down";
   "dowd"; "dome"; "dome"; "dome"; "dome"; "nown"; "now"]%string.

Definition left_words : list string :=
  ["left"; "let"; "let's"; "this"; "listen"; "lefty"; "lost"; "loft"; "less";
   "lives"; "life"; "live"]%string.

Definition right_words : list string :=
  ["right"; "night"; "plight"; "height"; "knight"; "light"; "fight"; "might";
   "flight"]%string.

(** The directional group, lines 132-142, inside the
    [elif voice_only_mode and scroll_enabled] branch. *)
Definition voice_scroll (command : string) : list Action :=
  if any_in up_words command then [Scroll Up]
  else if any_in down_words command then [Scroll Down]
  else if any_in left_words command then [Scroll Left]
  else if any_in right_words command then [Scroll Right]
  else [].

(** One recognised utterance in [voice_command_listener], lines 91-142.
    [text] is the recogniser's text, [now] the value [time.time()] would
    return in the recalibration branch. *)
Definition voice_command (voice_only_mode : bool) (now : Q) (text : string)
    (s : State) : State * list Action :=
  let command := lower text in
  match command with
  | EmptyString => (s, [])
  | _ =>
    if any_in stop_words command then (set_scroll_enabled false s, [])
    else if any_in start_words command then (set_scroll_enabled true s, [])
    else if any_in recalibrate_words command then
      (set_calibration_start (Some now) (set_recalibrated false s), [])
    else if any_in zoom_in_words command then (s, [Zoom ZoomIn])
    else if any_in zoom_out_words command then (s, [Zoom ZoomOut])
    else if any_in zoom_reset_words command then (s, [Zoom ZoomReset])
    else if voice_only_mode && scroll_enabled s then (s, voice_scroll command)
    else (s, [])
  end.

(** ** Executions *)

(** What the two threads do, one step at a time: the video loop processes
    a frame, or the listener dispatches an utterance. *)
Inductive Event :=
| EvFrame (f : Frame)
| EvVoice (now : Q) (text : string).

Definition step (voice_only_mode : bool) (s : State) (e : Event)
  : option (State * list Action) :=
  match e with
  | EvFrame f => frame_step s f
  | EvVoice now text => Some (voice_command voice_only_mode now text s)
  end.

Fixpoint run (voice_only_mode : bool) (s : State) (evs : list Event)
  : option (State * list Action) :=
  match evs with
  | [] => Some (s, [])
  | e :: rest =>
      r1 ← step voice_only_mode s e;
      r2 ← run voice_only_mode (fst r1) rest;
      Some (fst r2, snd r1 ++ snd r2)
  end.

(** In voice-only mode the script never enters the video loop. *)
Definition admissible (voice_only_mode : bool) (e : Event) : bool :=
  match e with
  | EvFrame _ => negb voice_only_mode
  | EvVoice _ _ => true
  end.

Definition reachable (voice_only_mode : bool) (t0 : Q) (s : State) : Prop :=
  exists evs acts,
    forallb (admissible voice_only_mode) evs = true /\
    run voice_only_mode (init_state t0) evs = Some (s, acts).

(** ** Notions used to state the properties *)

(** What [process_scroll] does to the entry of its own direction, and how
    many actions it emits: the projection used to reason about one
    direction across the four call sites. *)
Definition debounce (enabled : bool) (t : Q) (condition : bool) (ds : DirState)
  : DirState * nat :=
  let '(ss, acts) :=
    process_scroll enabled t Left condition (set_dir Left ds scroll_state_init) in
  (get_dir Left ss, scrolls Left acts).

(** Closes a goal on [scrolls] counts once the other directions' counts
    are known to be zero. *)
Ltac close_scrolls :=
  repeat match goal with
         | H : scrolls _ _ = 0%nat |- _ => rewrite H; clear H
         end;
  rewrite ?Nat.add_0_r, ?Nat.add_0_l; congruence.

(** Every tracked landmark has a box. *)
Definition boxes_present (pb : gmap Z Box) : Prop :=
  forall idx, In idx tracked_idxs_x -> is_Some (pb !! idx).

(** The state in which the calibration or tracking branch runs. *)
Definition seen (f : Frame) (s : State) : State :=
  let s1 := set_last_face_seen_time (current_time f) s in
  if sleep_mode s1 then set_sleep_mode false s1 else s1.

(** *** Sample faces, states and runs *)

(** Landmarks of a head centred at pixel column [x]: forehead at row 50,
    chin at row 150, the central point at row 100. *)
Definition head_at (x : Z) : Landmarks :=
  fun idx =>
    if idx =? forehead_idx then (x, 50)
    else if idx =? chin_idx then (x, 150)
    else (x, 100).

(** A calibrated state with zones centred on [head_at 100]. *)
Definition calibrated_at_100 (enabled : bool) (timer : option Q) : State :=
  mkState enabled true None timer (snapshot (head_at 100) ∅) false 0%Q
          scroll_state_init.

(** In a calibrated state every tracked landmark has a box. *)
Definition boxes_ready (s : State) : Prop :=
  recalibrated s = true -> boxes_present (pink_boxes s).

(** The first two face frames of a session, 2.5 s apart: the second one
    completes the calibration. *)
Definition calibrating_events : list Event :=
  [EvFrame (mkFrame 0%Q (Some (head_at 100)) 0%Q);
   EvFrame (mkFrame (5 # 2)%Q (Some (head_at 100)) (5 # 2)%Q)].

(** The state reached by [calibrating_events] from [init_state 0]. *)
Definition just_calibrated : State :=
  mkState true true None None (snapshot (head_at 100) ∅) false (5 # 2)%Q
          scroll_state_init.

(** *** Calibration events *)

(** The frame completes the initial calibration: a face is detected, the
    state is uncalibrated, and the hold of 2 s has elapsed. *)
Definition completes_calibration (s : State) (f : Frame) : bool :=
  match face f, calibration_start s with
  | Some _, Some cs =>
      negb (recalibrated s) && Qle_bool calibration_hold_time (clock f - cs)
  | _, _ => false
  end.

(** The frame completes an automatic recalibration: a face is detected in
    a calibrated state, all tracked landmarks are inside their boxes, and
    the hold of 3 s has elapsed. *)
Definition completes_recalibration (s : State) (f : Frame) : bool :=
  match face f, recalibration_timer_start s with
  | Some lm, Some rs =>
      recalibrated s
      && match is_all_inside_boxes (pink_boxes s) lm with
         | Some inside => inside
         | None => false
         end
      && Qle_bool recalibration_hold_time (current_time f - rs)
  | _, _ => false
  end.

(** *** The dispatcher of the specification *)

(** The dispatcher as the specification words it: an intent per category,
    a keyword table, a priority order, and the first category that
    matches wins. These definitions follow the specification; they are
    compared below with [voice_command], which follows the script. *)
Inductive VoiceIntent :=
| IStop | IStart | IRecalibrate | IZoomIn | IZoomOut | IZoomReset
| IScrollUp | IScrollDown | IScrollLeft | IScrollRight | INone.

Definition spec_keywords (i : VoiceIntent) : list string :=
  match i with
  | IStop => stop_words
  | IStart => start_words
  | IRecalibrate => recalibrate_words
  | IZoomIn => zoom_in_words
  | IZoomOut => zoom_out_words
  | IZoomReset => zoom_reset_words
  | IScrollUp => up_words
  | IScrollDown => down_words
  | IScrollLeft => left_words
  | IScrollRight => right_words
  | INone => []
  end.

Definition spec_priority : list VoiceIntent :=
  [IStop; IStart; IRecalibrate; IZoomIn; IZoomOut; IZoomReset;
   IScrollUp; IScrollDown; IScrollLeft; IScrollRight].

Definition spec_directional (i : VoiceIntent) : bool :=
  match i with
  | IScrollUp | IScrollDown | IScrollLeft | IScrollRight => true
  | _ => false
  end.

(** A category matches when one of its keywords is a substring of the
    command; the directional group is gated by
    "voice-only mode and scroll_enabled". *)
Definition spec_matches (voice_only_mode enabled : bool) (command : string)
    (i : VoiceIntent) : bool :=
  any_in (spec_keywords i) command
  && (negb (spec_directional i) || (voice_only_mode && enabled)).

Definition spec_resolve (voice_only_mode enabled : bool) (command : string)
  : VoiceIntent :=
  match List.find (spec_matches voice_only_mode enabled command) spec_priority with
  | Some i => i
  | None => INone
  end.

Definition spec_effect (now : Q) (i : VoiceIntent) (s : State)
  : State * list Action :=
  match i with
  | IStop => (set_scroll_enabled false s, [])
  | IStart => (set_scroll_enabled true s, [])
  | IRecalibrate => (set_calibration_start (Some now) (set_recalibrated false s), [])
  | IZoomIn => (s, [Zoom ZoomIn])
  | IZoomOut => (s, [Zoom ZoomOut])
  | IZoomReset => (s, [Zoom ZoomReset])
  | IScrollUp => (s, [Scroll Up])
  | IScrollDown => (s, [Scroll Down])
  | IScrollLeft => (s, [Scroll Left])
  | IScrollRight => (s, [Scroll Right])
  | INone => (s, [])
  end.

(** *** Histories of a start time *)

Definition start_of (d : Direction) (s : State) : option Q :=
  start_time (get_dir d (scroll_state s)).

(** The trigger condition of direction [d] as evaluated by an event: the
    argument passed to [process_scroll] at the call site of [d], on a
    frame with a face in a calibrated state; no condition is evaluated by
    other events. *)
Definition trigger_condition (d : Direction) (s : State) (e : Event)
  : option bool :=
  match e with
  | EvFrame f =>
      match face f with
      | Some lm =>
          if recalibrated s
          then match gaze_conditions (pink_boxes s) lm with
               | Some conds => Some (cond_of d conds)
               | None => None
               end
          else None
      | None => None
      end
  | EvVoice _ _ => None
  end.

(** The event evaluates the condition of [d] to false. *)
Definition condition_false (d : Direction) (s : State) (e : Event) : bool :=
  match trigger_condition d s e with
  | Some c => negb c
  | None => false
  end.

(** The event evaluates the condition of [d] to false while
    [scroll_enabled] is true. *)
Definition condition_false_enabled (d : Direction) (s : State) (e : Event)
  : bool :=
  scroll_enabled s && condition_false d s e.

(** No event of [evs], run from [s], is a break in the sense of [breaks]. *)
Fixpoint held_since (breaks : State -> Event -> bool) (vo : bool) (s : State)
    (evs : list Event) : bool :=
  match evs with
  | [] => true
  | e :: rest =>
      negb (breaks s e)
      && match step vo s e with
         | Some (s1, _) => held_since breaks vo s1 rest
         | None => true
         end
  end.

(** [start_time] of [d] was set by an event of [evs] (it was unset before
    the event and set after it), and no later event of [evs] is a break. *)
Definition set_and_held (breaks : State -> Event -> bool) (vo : bool)
    (s0 : State) (evs : list Event) (d : Direction) : Prop :=
  exists pre e post s1 a1 s2 a2,
    evs = pre ++ e :: post /\
    run vo s0 pre = Some (s1, a1) /\
    step vo s1 e = Some (s2, a2) /\
    start_of d s1 = None /\
    start_of d s2 <> None /\
    held_since breaks vo s2 post = true.

(** Calibration, then the head moves left at t = 3 (the left condition
    is true), scrolling is stopped by voice, and the head is back in the
    neutral position at t = 4 (the left condition is false). *)
Definition stop_then_neutral : list Event :=
  calibrating_events ++
  [EvFrame (mkFrame 3%Q (Some (head_at 60)) 3%Q);
   EvVoice (7 # 2)%Q "stop";
   EvFrame (mkFrame 4%Q (Some (head_at 100)) 4%Q)].

(** *** The input simulator *)

(** What reaches the operating system: [pyautogui.scroll(n)],
    [pyautogui.press(key)] and [pyautogui.hotkey(k1, k2)]. The lines
    printed on the console are not modelled. *)
Inductive OsInput :=
| Wheel (clicks : Z)
| Press (key : string)
| Hotkey (k1 k2 : string).

(** [scroll_once(direction)], on the string it receives. *)
Definition scroll_once (direction : string) : list OsInput :=
  if String.eqb direction "up" then [Wheel 300]
  else if String.eqb direction "down" then [Wheel (-300)]
  else if String.eqb direction "left" then List.repeat (Press "left") 3
  else if String.eqb direction "right" then List.repeat (Press "right") 3
  else [].

(** [zoom_control(direction)], on the string it receives. *)
Definition zoom_control (direction : string) : list OsInput :=
  if String.eqb direction "in" then [Hotkey "ctrl" "+"]
  else if String.eqb direction "out" then [Hotkey "ctrl" "-"]
  else if String.eqb direction "reset" then [Hotkey "ctrl" "0"]
  else [].

(** The string literals of the call sites. *)
Definition direction_name (d : Direction) : string :=
  match d with
  | Left => "left"
  | Right => "right"
  | Up => "up"
  | Down => "down"
  end.

Definition zoom_name (z : ZoomDir) : string :=
  match z with
  | ZoomIn => "in"
  | ZoomOut => "out"
  | ZoomReset => "reset"
  end.

(** What one action sends to the operating system. *)
Definition perform (a : Action) : list OsInput :=
  match a with
  | Scroll d => scroll_once (direction_name d)
  | Zoom z => zoom_control (zoom_name z)
  end.

Definition os_inputs (acts : list Action) : list OsInput :=
  List.flat_map perform acts.

(** Net wheel displacement of a sequence of inputs. *)
Definition wheel_total (ins : list OsInput) : Z :=
  fold_right (fun i acc => match i with Wheel n => n + acc | _ => acc end) 0 ins.

(** Number of presses of [key]. *)
Definition presses (key : string) (ins : list OsInput) : nat :=
  List.length
    (List.filter (fun i => match i with
                           | Press k => String.eqb k key
                           | _ => false
                           end) ins).

(** Number of hotkeys. *)
Definition hotkeys (ins : list OsInput) : nat :=
  List.length
    (List.filter (fun i => match i with Hotkey _ _ => true | _ => false end) ins).

(** Number of zoom actions. *)
Definition zooms (acts : list Action) : nat :=
  List.length
    (List.filter (fun a => match a with Zoom _ => true | Scroll _ => false end) acts).

(** *** Emission times of the debouncer *)

(** The times of the frames of a run on which an action for [d] is emitted. *)
Fixpoint emission_times (d : Direction) (enabled : bool)
    (frames : list (Q * Conds)) (ss : ScrollState) : list Q :=
  match frames with
  | [] => []
  | (t, c) :: rest =>
      let '(ss1, a1) := scroll_frame enabled t c ss in
      (if (0 <? scrolls d a1)%nat then [t] else [])
      ++ emission_times d enabled rest ss1
  end.

(** Every time of [ts] is at least 1.0 s after [t0] and at least 0.3 s
    after the time before it, [prev] being the time before the first. *)
Fixpoint spaced (t0 prev : Q) (ts : list Q) : Prop :=
  match ts with
  | [] => True
  | t :: rest => (t0 + 1 <= t)%Q /\ (prev + (3 # 10) <= t)%Q /\ spaced t0 t rest
  end.

(** The entry of a direction is consistent: within a hold,
    [last_scroll_time] is the start of the hold or at least 1.0 s later. *)
Definition timers_consistent (ds : DirState) : Prop :=
  match start_time ds with
  | Some st => last_scroll_time ds = st \/ (st + 1 <= last_scroll_time ds)%Q
  | None => True
  end.

(** Only frames, no utterance. *)
Definition frames_only (evs : list Event) : bool :=
  forallb (fun e => match e with EvFrame _ => true | EvVoice _ _ => false end) evs.

(** *** The most recent face detection *)

(** The [current_time] of the last frame of [evs] in which a face was
    detected, [t0] when there is none. *)
Definition last_face_time (t0 : Q) (evs : list Event) : Q :=
  fold_left
    (fun acc e =>
       match e with
       | EvFrame f => match face f with
                      | Some _ => current_time f
                      | None => acc
                      end
       | EvVoice _ _ => acc
       end)
    evs t0.

(** *** Transcripts that differ in case only *)

(** The same character, or the same ASCII letter in the other case
    (codes 65 to 90 are the capitals, 32 below the small letters). *)
Definition same_letter (c c' : ascii) : bool :=
  let n := nat_of_ascii c in
  let n' := nat_of_ascii c' in
  (n =? n')%nat
  || ((65 <=? n)%nat && (n <=? 90)%nat && (n' =? n + 32)%nat)
  || ((65 <=? n')%nat && (n' <=? 90)%nat && (n =? n' + 32)%nat).

Fixpoint same_up_to_case (a b : string) : bool :=
  match a, b with
  | EmptyString, EmptyString => true
  | String c a', String c' b' => same_letter c c' && same_up_to_case a' b'
  | _, _ => false
  end.

(** * Properties *)

(** ** The debouncer, one direction at a time *)

Lemma Direction_eqb_eq a b : Direction_eqb a b = true <-> a = b.
Proof. destruct a, b; simpl; split; congruence. Qed.

Lemma Direction_eqb_refl a : Direction_eqb a a = true.
Proof. now destruct a. Qed.

Lemma Direction_eqb_neq a b : a <> b -> Direction_eqb a b = false.
Proof.
  intros H. destruct (Direction_eqb a b) eqn:E; [|reflexivity].
  apply Direction_eqb_eq in E. contradiction.
Qed.

Lemma get_set_same d v ss : get_dir d (set_dir d v ss) = v.
Proof. now destruct d. Qed.

Lemma get_set_other d d' v ss :
  d <> d' -> get_dir d' (set_dir d v ss) = get_dir d' ss.
Proof. destruct d, d'; simpl; congruence. Qed.

Lemma set_get_same d ss : set_dir d (get_dir d ss) ss = ss.
Proof. destruct d, ss; reflexivity. Qed.

Lemma scrolls_app d a b : scrolls d (a ++ b) = (scrolls d a + scrolls d b)%nat.
Proof. unfold scrolls. now rewrite List.filter_app, List.length_app. Qed.

Lemma scrolls_nil d : scrolls d [] = 0%nat.
Proof. reflexivity. Qed.

Lemma scrolls_one_same d : scrolls d [Scroll d] = 1%nat.
Proof. unfold scrolls. simpl. now rewrite Direction_eqb_refl. Qed.

Lemma scrolls_one_other d d' : d <> d' -> scrolls d [Scroll d'] = 0%nat.
Proof. intros H. unfold scrolls. simpl. now rewrite Direction_eqb_neq. Qed.

Lemma process_scroll_disabled t d c ss : process_scroll false t d c ss = (ss, []).
Proof. reflexivity. Qed.

Lemma process_scroll_other e t d c ss d' :
  d' <> d ->
  get_dir d' (fst (process_scroll e t d c ss)) = get_dir d' ss /\
  scrolls d' (snd (process_scroll e t d c ss)) = 0%nat.
Proof.
  intros Hne. assert (Hne' : d <> d') by congruence.
  unfold process_scroll.
  destruct e; simpl; [|now split].
  destruct c.
  - destruct (start_time (get_dir d ss)) as [st|].
    + destruct (_ && _); simpl; [|now split].
      split; [now apply get_set_other | now apply scrolls_one_other].
    + simpl. split; [now apply get_set_other | now apply scrolls_one_other].
  - simpl. split; [now apply get_set_other | reflexivity].
Qed.

Lemma process_scroll_own e t d c ss :
  get_dir d (fst (process_scroll e t d c ss)) = fst (debounce e t c (get_dir d ss)) /\
  scrolls d (snd (process_scroll e t d c ss)) = snd (debounce e t c (get_dir d ss)).
Proof.
  unfold debounce, process_scroll. simpl.
  destruct e; simpl; [|now split].
  destruct c.
  - destruct (start_time (get_dir d ss)) as [st|].
    + destruct (_ && _); simpl; [|now split].
      split; [now rewrite get_set_same | now rewrite scrolls_one_same].
    + simpl. split; [now rewrite get_set_same | now rewrite scrolls_one_same].
  - simpl. split; [now rewrite get_set_same | reflexivity].
Qed.

(** Each call site only concerns its own direction. *)
Lemma scroll_frame_dir e t c ss d :
  get_dir d (fst (scroll_frame e t c ss))
    = fst (debounce e t (cond_of d c) (get_dir d ss)) /\
  scrolls d (snd (scroll_frame e t c ss))
    = snd (debounce e t (cond_of d c) (get_dir d ss)).
Proof.
  unfold scroll_frame.
  destruct (process_scroll e t Left (c_left c) ss) as [ss1 a1] eqn:E1.
  destruct (process_scroll e t Right (c_right c) ss1) as [ss2 a2] eqn:E2.
  destruct (process_scroll e t Up (c_up c) ss2) as [ss3 a3] eqn:E3.
  destruct (process_scroll e t Down (c_down c) ss3) as [ss4 a4] eqn:E4.
  cbn [fst snd]. rewrite !scrolls_app.
  pose proof (process_scroll_own e t Left (c_left c) ss) as O1.
  pose proof (process_scroll_own e t Right (c_right c) ss1) as O2.
  pose proof (process_scroll_own e t Up (c_up c) ss2) as O3.
  pose proof (process_scroll_own e t Down (c_down c) ss3) as O4.
  pose proof (fun d' => process_scroll_other e t Left (c_left c) ss d') as N1.
  pose proof (fun d' => process_scroll_other e t Right (c_right c) ss1 d') as N2.
  pose proof (fun d' => process_scroll_other e t Up (c_up c) ss2 d') as N3.
  pose proof (fun d' => process_scroll_other e t Down (c_down c) ss3 d') as N4.
  rewrite E1 in O1, N1. rewrite E2 in O2, N2.
  rewrite E3 in O3, N3. rewrite E4 in O4, N4. cbn [fst snd] in *.
  destruct d; cbn [cond_of].
  - destruct (N2 Left), (N3 Left), (N4 Left), O1; try congruence.
    split; [congruence | close_scrolls].
  - destruct (N1 Right), (N3 Right), (N4 Right), O2; try congruence.
    split; [congruence | close_scrolls].
  - destruct (N1 Up), (N2 Up), (N4 Up), O3; try congruence.
    split; [congruence | close_scrolls].
  - destruct (N1 Down), (N2 Down), (N3 Down), O4; try congruence.
    split; [congruence | close_scrolls].
Qed.

Lemma debounce_disabled t c ds : debounce false t c ds = (ds, 0%nat).
Proof. reflexivity. Qed.

Lemma debounce_rising t ds :
  start_time ds = None ->
  debounce true t true ds = (mkDirState (Some t) t, 1%nat).
Proof. intros H. unfold debounce, process_scroll. simpl. now rewrite H. Qed.

Lemma debounce_release t ds :
  debounce true t false ds = (mkDirState None (last_scroll_time ds), 0%nat).
Proof. reflexivity. Qed.

Lemma debounce_held t ds st :
  start_time ds = Some st ->
  debounce true t true ds =
    if Qle_bool sustain_threshold (t - st)
       && Qle_bool scroll_delay (t - last_scroll_time ds)
    then (mkDirState (Some st) t, 1%nat)
    else (ds, 0%nat).
Proof.
  intros H. unfold debounce, process_scroll. simpl. rewrite H.
  destruct (_ && _); simpl; [reflexivity|]. now destruct ds.
Qed.

Lemma Qle_bool_false (x y : Q) : (y < x)%Q -> Qle_bool x y = false.
Proof.
  intros H. destruct (Qle_bool x y) eqn:E; [|reflexivity].
  apply Qle_bool_iff in E. lra.
Qed.

Lemma Qle_bool_true (x y : Q) : (x <= y)%Q -> Qle_bool x y = true.
Proof. apply Qle_bool_iff. Qed.

Lemma scroll_run_app e fs gs ss :
  fst (scroll_run e (fs ++ gs) ss) = fst (scroll_run e gs (fst (scroll_run e fs ss))).
Proof.
  revert ss. induction fs as [|[t c] fs IH]; intros ss; [reflexivity|].
  simpl. destruct (scroll_frame e t c ss) as [ss1 a1].
  specialize (IH ss1).
  destruct (scroll_run e (fs ++ gs) ss1) as [ss2 a2].
  destruct (scroll_run e fs ss1) as [ss3 a3]. simpl in *.
  now destruct (scroll_run e gs ss3).
Qed.

Lemma scroll_run_cons e t c fs ss :
  fst (scroll_run e ((t, c) :: fs) ss)
    = fst (scroll_run e fs (fst (scroll_frame e t c ss))).
Proof.
  simpl. destruct (scroll_frame e t c ss) as [ss1 a1]. simpl.
  now destruct (scroll_run e fs ss1).
Qed.

(** While the condition holds, [start_time] keeps the time of the rising edge. *)
Lemma held_start_time d st fs ss :
  Forall (fun f => cond_of d (snd f) = true) fs ->
  start_time (get_dir d ss) = Some st ->
  start_time (get_dir d (fst (scroll_run true fs ss))) = Some st.
Proof.
  intros Hall. revert ss.
  induction Hall as [|[t c] fs Hc _ IH]; intros ss Hs; [exact Hs|].
  rewrite scroll_run_cons. apply IH.
  destruct (scroll_frame_dir true t c ss d) as [-> _].
  simpl in Hc. rewrite Hc, (debounce_held _ _ _ Hs).
  now destruct (_ && _).
Qed.

(** C1. With [scroll_enabled] true throughout and the start time of
    direction [d] unset, let the condition of [d] become true on the frame
    at time [t0], stay true on the frames [hold], then be false on the
    frames [release]. The frame at [t0] emits exactly one scroll action
    for [d] and sets both timers to [t0]. On every held frame
    [start_time] still is [t0]; a held frame less than 1.0 s after [t0]
    emits nothing and leaves the entry as it is; a held frame at least
    1.0 s after [t0] and at least 0.3 s after [last_scroll_time] emits
    exactly one action and sets [last_scroll_time] to its time; a held
    frame emits nothing otherwise. Every frame of [release] emits nothing
    for [d] and leaves [start_time] cleared. *)
Theorem C1_edge_then_repeat :
  forall (d : Direction) (t0 : Q) (c0 : Conds)
         (hold release : list (Q * Conds)) (ss : ScrollState),
    start_time (get_dir d ss) = None ->
    cond_of d c0 = true ->
    Forall (fun f => cond_of d (snd f) = true) hold ->
    Forall (fun f => cond_of d (snd f) = false) release ->
    (let r0 := scroll_frame true t0 c0 ss in
     scrolls d (snd r0) = 1%nat /\
     get_dir d (fst r0) = mkDirState (Some t0) t0) /\
    (forall pre t c post,
        hold = pre ++ (t, c) :: post ->
        let s := fst (scroll_run true ((t0, c0) :: pre) ss) in
        let r := scroll_frame true t c s in
        start_time (get_dir d s) = Some t0 /\
        start_time (get_dir d (fst r)) = Some t0 /\
        ((t - t0 < 1)%Q ->
         scrolls d (snd r) = 0%nat /\ get_dir d (fst r) = get_dir d s) /\
        ((1 <= t - t0)%Q ->
         (3 # 10 <= t - last_scroll_time (get_dir d s))%Q ->
         scrolls d (snd r) = 1%nat /\
         last_scroll_time (get_dir d (fst r)) = t) /\
        ((t - last_scroll_time (get_dir d s) < 3 # 10)%Q ->
         scrolls d (snd r) = 0%nat /\ get_dir d (fst r) = get_dir d s)) /\
    (forall pre t c post,
        release = pre ++ (t, c) :: post ->
        let s := fst (scroll_run true ((t0, c0) :: hold ++ pre) ss) in
        let r := scroll_frame true t c s in
        scrolls d (snd r) = 0%nat /\
        start_time (get_dir d (fst r)) = None).
Proof.
  intros d t0 c0 hold release ss Hidle Hc0 Hhold Hrel.
  assert (Hedge : get_dir d (fst (scroll_frame true t0 c0 ss))
                  = mkDirState (Some t0) t0 /\
                  scrolls d (snd (scroll_frame true t0 c0 ss)) = 1%nat).
  { destruct (scroll_frame_dir true t0 c0 ss d) as [-> ->].
    rewrite Hc0, (debounce_rising _ _ Hidle). now split. }
  destruct Hedge as [Hst Hn].
  split; [now split|]. split.
  - intros pre t c post Heq s r.
    assert (Hpre : Forall (fun f => cond_of d (snd f) = true) pre).
    { rewrite Heq in Hhold. now apply Forall_app in Hhold as [? _]. }
    assert (Hc : cond_of d c = true).
    { rewrite Heq in Hhold. apply Forall_app in Hhold as [_ H].
      now inversion H. }
    assert (Hs : start_time (get_dir d s) = Some t0).
    { subst s. rewrite scroll_run_cons. apply held_start_time; [exact Hpre|].
      now rewrite Hst. }
    subst r. destruct (scroll_frame_dir true t c s d) as [-> ->].
    rewrite Hc, (debounce_held _ _ _ Hs). unfold sustain_threshold, scroll_delay.
    split; [exact Hs|]. split; [now destruct (_ && _)|].
    split; [|split].
    + intros Hlt. rewrite (Qle_bool_false 1 (t - t0) Hlt). now split.
    + intros H1 H2.
      rewrite (Qle_bool_true _ _ H1), (Qle_bool_true _ _ H2). now split.
    + intros Hlt. rewrite (Qle_bool_false _ _ Hlt), andb_false_r. now split.
  - intros pre t c post Heq s r.
    assert (Hc : cond_of d c = false).
    { rewrite Heq in Hrel. apply Forall_app in Hrel as [_ H].
      now inversion H. }
    subst r. destruct (scroll_frame_dir true t c s d) as [-> ->].
    rewrite Hc, debounce_release. now split.
Qed.

(** A concrete instance: head held to the left from t = 0, frames at
    0.5, 1.0, 1.2, 1.3 and 1.6, then back to neutral at t = 2. *)
Lemma C1_edge_then_repeat_witness :
  let held := mkConds true false false false in
  let neutral := mkConds false false false false in
  let hold := [(1 # 2, held); (1, held); (12 # 10, held); (13 # 10, held);
               (16 # 10, held)]%Q in
  let release := [(2%Q, neutral)] in
  start_time (get_dir Left scroll_state_init) = None /\
  (let r0 := scroll_frame true 0%Q held scroll_state_init in
   scrolls Left (snd r0) = 1%nat /\
   get_dir Left (fst r0) = mkDirState (Some 0%Q) 0%Q) /\
  (forall pre t c post,
      release = pre ++ (t, c) :: post ->
      let s := fst (scroll_run true ((0%Q, held) :: hold ++ pre) scroll_state_init) in
      let r := scroll_frame true t c s in
      scrolls Left (snd r) = 0%nat /\
      start_time (get_dir Left (fst r)) = None).
Proof.
  intros held neutral hold release.
  assert (Hhold : Forall (fun f => cond_of Left (snd f) = true) hold)
    by (repeat constructor).
  assert (Hrel : Forall (fun f => cond_of Left (snd f) = false) release)
    by (repeat constructor).
  destruct (C1_edge_then_repeat Left 0%Q held hold release scroll_state_init
              eq_refl eq_refl Hhold Hrel) as (Hedge & _ & Hrelease).
  split; [reflexivity|]. split; [exact Hedge | exact Hrelease].
Defined.

(** The scenario of the specification: actions at 0, 1.0, 1.3 and 1.6. *)
Example scroll_run_scenario :
  let held := mkConds true false false false in
  List.map (fun t => snd (scroll_run true [(t, held)]
             (fst (scroll_run true
                     (List.filter (fun f => negb (Qle_bool t (fst f)))
                        [(0, held); (1 # 2, held); (1, held); (12 # 10, held);
                         (13 # 10, held); (16 # 10, held)]%Q)
                     scroll_state_init))))
           [0; 1 # 2; 1; 12 # 10; 13 # 10; 16 # 10]%Q
  = [[Scroll Left]; []; [Scroll Left]; []; [Scroll Left]; [Scroll Left]].
Proof. reflexivity. Qed.

(** ** Zones and lookups *)

Lemma boxes_present_lookups (pb : gmap Z Box) :
  boxes_present pb ->
  exists bf bc bm,
    pb !! forehead_idx = Some bf /\ pb !! chin_idx = Some bc /\
    pb !! 168 = Some bm.
Proof.
  intros H.
  destruct (H forehead_idx) as [bf Hf]; [simpl; tauto|].
  destruct (H chin_idx) as [bc Hc]; [simpl; tauto|].
  destruct (H 168) as [bm Hm]; [simpl; tauto|].
  now exists bf, bc, bm.
Qed.

Lemma gaze_conditions_Some pb lm :
  boxes_present pb -> is_Some (gaze_conditions pb lm).
Proof.
  intros H. destruct (boxes_present_lookups pb H) as (bf & bc & bm & Hf & Hc & Hm).
  unfold gaze_conditions. cbn [tracked_idxs_x mapM].
  rewrite Hf, Hc, Hm. simpl. eauto.
Qed.

Lemma is_all_inside_boxes_Some pb lm :
  boxes_present pb -> is_Some (is_all_inside_boxes pb lm).
Proof.
  intros H. destruct (boxes_present_lookups pb H) as (bf & bc & bm & Hf & Hc & Hm).
  unfold is_all_inside_boxes. cbn [tracked_idxs_x inside_loop].
  rewrite Hf, Hc, Hm. simpl.
  repeat (destruct (negb _); [eauto|]). eauto.
Qed.

Lemma gaze_conditions_present pb lm c :
  gaze_conditions pb lm = Some c -> boxes_present pb.
Proof.
  unfold gaze_conditions. cbn [tracked_idxs_x mapM].
  destruct (pb !! forehead_idx) as [bf|] eqn:Hf; [|discriminate].
  destruct (pb !! chin_idx) as [bc|] eqn:Hc; [|discriminate].
  destruct (pb !! 168) as [bm|] eqn:Hm; [|discriminate].
  intros _ idx [<-|[<-|[<-|[]]]]; eauto.
Qed.

Lemma snapshot_lookup lm pb idx :
  In idx tracked_idxs_x -> snapshot lm pb !! idx = Some (zone_around (lm idx)).
Proof.
  unfold snapshot, tracked_idxs_x, forehead_idx, chin_idx. simpl.
  intros [<-|[<-|[<-|[]]]].
  - rewrite lookup_insert_ne by lia. rewrite lookup_insert_ne by lia.
    apply lookup_insert_eq.
  - rewrite lookup_insert_ne by lia. apply lookup_insert_eq.
  - apply lookup_insert_eq.
Qed.

Lemma snapshot_present lm pb : boxes_present (snapshot lm pb).
Proof. intros idx H. rewrite (snapshot_lookup lm pb idx H). eauto. Qed.

(** ** Frame-level facts *)

Lemma scroll_frame_disabled t c ss : scroll_frame false t c ss = (ss, []).
Proof. reflexivity. Qed.

Lemma calibrate_keeps f lm s :
  scroll_enabled (calibrate f lm s) = scroll_enabled s /\
  recalibration_timer_start (calibrate f lm s) = recalibration_timer_start s /\
  sleep_mode (calibrate f lm s) = sleep_mode s /\
  last_face_seen_time (calibrate f lm s) = last_face_seen_time s /\
  scroll_state (calibrate f lm s) = scroll_state s.
Proof.
  unfold calibrate. destruct (calibration_start s); [|now simpl].
  now destruct (Qle_bool _ _).
Qed.

Lemma auto_recalibrate_keeps f lm inside s :
  scroll_enabled (auto_recalibrate f lm inside s) = scroll_enabled s /\
  recalibrated (auto_recalibrate f lm inside s) = recalibrated s /\
  calibration_start (auto_recalibrate f lm inside s) = calibration_start s /\
  sleep_mode (auto_recalibrate f lm inside s) = sleep_mode s /\
  last_face_seen_time (auto_recalibrate f lm inside s) = last_face_seen_time s /\
  scroll_state (auto_recalibrate f lm inside s) = scroll_state s.
Proof.
  unfold auto_recalibrate. destruct inside; [|now simpl].
  destruct (recalibration_timer_start s); [|now simpl].
  now destruct (Qle_bool _ _).
Qed.

Lemma sleep_check_keeps f s :
  sleep_check f s = set_sleep_mode (sleep_mode (sleep_check f s)) s.
Proof.
  unfold sleep_check. destruct (_ && _); [reflexivity|]. now destruct s.
Qed.

Lemma seen_eq f s :
  seen f s = set_sleep_mode false (set_last_face_seen_time (current_time f) s).
Proof. unfold seen. simpl. now destruct s as [? ? ? ? ? []]. Qed.

Lemma frame_step_face s f lm :
  face f = Some lm ->
  frame_step s f =
    if negb (recalibrated s) then Some (calibrate f lm (seen f s), [])
    else track f lm (seen f s).
Proof.
  intros H. unfold frame_step. rewrite H. fold (seen f s).
  rewrite seen_eq. reflexivity.
Qed.

Lemma frame_step_no_face s f :
  face f = None -> frame_step s f = Some (sleep_check f s, []).
Proof. intros H. unfold frame_step. now rewrite H. Qed.

(** With all boxes present the tracking branch runs to its end. *)
Lemma track_present f lm s :
  boxes_present (pink_boxes s) ->
  exists conds inside,
    gaze_conditions (pink_boxes s) lm = Some conds /\
    is_all_inside_boxes (pink_boxes s) lm = Some inside /\
    track f lm s =
      Some (auto_recalibrate f lm inside
              (set_scroll_state
                 (fst (scroll_frame (scroll_enabled s) (current_time f) conds
                         (scroll_state s))) s),
            snd (scroll_frame (scroll_enabled s) (current_time f) conds
                   (scroll_state s))).
Proof.
  intros H.
  destruct (gaze_conditions_Some _ lm H) as [conds Hc].
  destruct (is_all_inside_boxes_Some _ lm H) as [inside Hi].
  exists conds, inside. split; [exact Hc|]. split; [exact Hi|].
  unfold track. rewrite Hc. simpl.
  destruct (scroll_frame _ _ _ _) as [ss acts]. simpl. now rewrite Hi.
Qed.

Lemma track_inv f lm s s' acts :
  track f lm s = Some (s', acts) ->
  exists conds inside,
    gaze_conditions (pink_boxes s) lm = Some conds /\
    is_all_inside_boxes (pink_boxes s) lm = Some inside /\
    s' = auto_recalibrate f lm inside
           (set_scroll_state
              (fst (scroll_frame (scroll_enabled s) (current_time f) conds
                      (scroll_state s))) s) /\
    acts = snd (scroll_frame (scroll_enabled s) (current_time f) conds
                  (scroll_state s)).
Proof.
  intros H.
  destruct (gaze_conditions (pink_boxes s) lm) as [conds|] eqn:Hc.
  - pose proof (gaze_conditions_present _ _ _ Hc) as Hp.
    destruct (track_present f lm s Hp) as (c' & inside & Hc' & Hi & Ht).
    rewrite Hc in Hc'. injection Hc' as <-.
    rewrite Ht in H. injection H as <- <-.
    exists conds, inside. auto.
  - unfold track in H. rewrite Hc in H. discriminate.
Qed.

(** ** C8: frames processed while scrolling is disabled *)

(** C8. On a frame processed while [scroll_enabled] is false, every call
    of [process_scroll] returns at once, whatever its condition: the frame
    emits no action and [scroll_state] (each direction's [start_time] and
    [last_scroll_time]) is exactly as before. *)
Theorem C8_disabled_frame_is_inert :
  forall (s : State) (f : Frame),
    scroll_enabled s = false ->
    (forall d c,
        process_scroll (scroll_enabled s) (current_time f) d c (scroll_state s)
        = (scroll_state s, [])) /\
    (forall s' acts,
        frame_step s f = Some (s', acts) ->
        acts = [] /\ scroll_state s' = scroll_state s).
Proof.
  intros s f Hoff. split.
  - intros d c. now rewrite Hoff.
  - intros s' acts Hstep.
    destruct (face f) as [lm|] eqn:Hface.
    + rewrite (frame_step_face s f lm Hface) in Hstep.
      destruct (negb (recalibrated s)).
      * injection Hstep as <- <-. split; [reflexivity|].
        destruct (calibrate_keeps f lm (seen f s)) as (_ & _ & _ & _ & ->).
        now rewrite seen_eq.
      * apply track_inv in Hstep as (conds & inside & _ & _ & -> & ->).
        destruct (auto_recalibrate_keeps f lm inside
                    (set_scroll_state
                       (fst (scroll_frame (scroll_enabled (seen f s))
                               (current_time f) conds (scroll_state (seen f s))))
                       (seen f s))) as (_ & _ & _ & _ & _ & ->).
        rewrite seen_eq. simpl. rewrite Hoff. now split.
    + rewrite (frame_step_no_face s f Hface) in Hstep.
      injection Hstep as <- <-. split; [reflexivity|].
      now rewrite sleep_check_keeps.
Qed.

(** A calibrated, disabled state and a frame with the head far to the
    left (its left condition is true): nothing is emitted. *)
Lemma C8_disabled_frame_is_inert_witness :
  let s := calibrated_at_100 false None in
  let f := mkFrame 7%Q (Some (head_at 40)) 7%Q in
  scroll_enabled s = false /\
  exists s', frame_step s f = Some (s', []) /\ scroll_state s' = scroll_state s.
Proof.
  intros s f. split; [reflexivity|].
  destruct (C8_disabled_frame_is_inert s f eq_refl) as [_ H].
  destruct (frame_step s f) as [[s' acts]|] eqn:E.
  - destruct (H s' acts eq_refl) as [-> Hss]. exists s'. now split.
  - vm_compute in E. discriminate E.
Defined.

(** ** C10: lookups in [pink_boxes] never fail *)

(** The voice listener never writes [pink_boxes], the sleep monitor's
    fields, the recalibration timer or [scroll_state]. *)
Lemma voice_command_keeps vo now text s :
  let s' := fst (voice_command vo now text s) in
  pink_boxes s' = pink_boxes s /\
  recalibration_timer_start s' = recalibration_timer_start s /\
  sleep_mode s' = sleep_mode s /\
  last_face_seen_time s' = last_face_seen_time s /\
  scroll_state s' = scroll_state s /\
  (recalibrated s' = recalibrated s \/ recalibrated s' = false).
Proof.
  unfold voice_command. destruct (lower text) as [|a command]; [simpl; tauto|].
  repeat (destruct (any_in _ _); [simpl; tauto|]).
  destruct (_ && _); simpl; tauto.
Qed.

Lemma boxes_ready_init t0 : boxes_ready (init_state t0).
Proof. intros H. discriminate H. Qed.

Lemma calibrate_ready f lm s : boxes_ready s -> boxes_ready (calibrate f lm s).
Proof.
  unfold calibrate, boxes_ready. intros H.
  destruct (calibration_start s); [|exact H].
  destruct (Qle_bool _ _); [|exact H].
  intros _. apply snapshot_present.
Qed.

Lemma auto_recalibrate_ready f lm inside s :
  boxes_ready s -> boxes_ready (auto_recalibrate f lm inside s).
Proof.
  unfold auto_recalibrate, boxes_ready. intros H.
  destruct inside; [|exact H].
  destruct (recalibration_timer_start s); [|exact H].
  destruct (Qle_bool _ _); [|exact H].
  intros _. apply snapshot_present.
Qed.

Lemma frame_step_ready s f s' acts :
  boxes_ready s -> frame_step s f = Some (s', acts) -> boxes_ready s'.
Proof.
  intros Hr Hstep. destruct (face f) as [lm|] eqn:Hface.
  - rewrite (frame_step_face s f lm Hface) in Hstep.
    assert (Hseen : boxes_ready (seen f s)) by now rewrite seen_eq.
    destruct (negb (recalibrated s)).
    + injection Hstep as <- _. now apply calibrate_ready.
    + apply track_inv in Hstep as (conds & inside & _ & _ & -> & _).
      now apply auto_recalibrate_ready.
  - rewrite (frame_step_no_face s f Hface) in Hstep.
    injection Hstep as <- _. rewrite sleep_check_keeps. exact Hr.
Qed.

Lemma frame_step_total s f :
  boxes_ready s -> exists s' acts, frame_step s f = Some (s', acts).
Proof.
  intros Hr. destruct (face f) as [lm|] eqn:Hface.
  - rewrite (frame_step_face s f lm Hface).
    destruct (recalibrated s) eqn:Hrec; simpl; [|eauto].
    assert (Hp : boxes_present (pink_boxes (seen f s))).
    { rewrite seen_eq. now apply Hr. }
    destruct (track_present f lm _ Hp) as (conds & inside & _ & _ & ->). eauto.
  - rewrite (frame_step_no_face s f Hface). eauto.
Qed.

Lemma voice_command_ready vo now text s :
  boxes_ready s -> boxes_ready (fst (voice_command vo now text s)).
Proof.
  intros Hr Hrec.
  destruct (voice_command_keeps vo now text s) as (-> & _ & _ & _ & _ & [E|E]).
  - apply Hr. congruence.
  - congruence.
Qed.

Lemma step_ready vo s e s' acts :
  boxes_ready s -> step vo s e = Some (s', acts) -> boxes_ready s'.
Proof.
  intros Hr Hstep. destruct e as [f|now text]; simpl in Hstep.
  - eapply frame_step_ready; eauto.
  - injection Hstep as Hv.
    replace s' with (fst (voice_command vo now text s)) by now rewrite Hv.
    now apply voice_command_ready.
Qed.

Lemma run_cons_inv vo s e evs s' acts :
  run vo s (e :: evs) = Some (s', acts) ->
  exists s1 a1 a2,
    step vo s e = Some (s1, a1) /\ run vo s1 evs = Some (s', a2) /\
    acts = a1 ++ a2.
Proof.
  simpl. destruct (step vo s e) as [[s1 a1]|]; [|discriminate]. simpl.
  destruct (run vo s1 evs) as [[s2 a2]|] eqn:E; [|discriminate]. simpl.
  intros H. injection H as <- <-. exists s1, a1, a2. auto.
Qed.

Lemma run_ready vo evs : forall s s' acts,
  boxes_ready s -> run vo s evs = Some (s', acts) -> boxes_ready s'.
Proof.
  induction evs as [|e evs IH]; intros s s' acts Hr Hrun.
  - simpl in Hrun. injection Hrun as <- _. exact Hr.
  - apply run_cons_inv in Hrun as (s1 & a1 & a2 & Hs & Hrest & _).
    eapply IH; [|exact Hrest]. eapply step_ready; eauto.
Qed.

(** C10. In every reachable state with [recalibrated] true, [pink_boxes]
    holds a box for each index of [tracked_idxs_x]; so the lookups of the
    gaze path and of [is_all_inside_boxes] succeed, and the video loop
    processes any frame without a missing-key error. A voice command may
    set [recalibrated] to false but leaves [pink_boxes] as it is. *)
Theorem C10_boxes_present_when_calibrated :
  forall (vo : bool) (t0 : Q) (s : State),
    reachable vo t0 s ->
    (recalibrated s = true ->
     (forall idx, In idx tracked_idxs_x -> is_Some (pink_boxes s !! idx)) /\
     (forall lm, is_Some (gaze_conditions (pink_boxes s) lm)) /\
     (forall lm, is_Some (is_all_inside_boxes (pink_boxes s) lm))) /\
    (forall f, exists s' acts, frame_step s f = Some (s', acts)) /\
    (forall now text,
        pink_boxes (fst (voice_command vo now text s)) = pink_boxes s).
Proof.
  intros vo t0 s (evs & acts & _ & Hrun).
  assert (Hr : boxes_ready s).
  { eapply run_ready; [apply (boxes_ready_init t0) | exact Hrun]. }
  split; [|split].
  - intros Hrec. pose proof (Hr Hrec) as Hp. split; [exact Hp|]. split.
    + intros lm. now apply gaze_conditions_Some.
    + intros lm. now apply is_all_inside_boxes_Some.
  - intros f. now apply frame_step_total.
  - intros now text. now destruct (voice_command_keeps vo now text s) as [-> _].
Qed.

Lemma just_calibrated_reachable : reachable false 0%Q just_calibrated.
Proof.
  exists calibrating_events, []. split; [reflexivity|].
  vm_compute. reflexivity.
Defined.

Lemma C10_boxes_present_when_calibrated_witness :
  reachable false 0%Q just_calibrated /\
  (forall f, exists s' acts, frame_step just_calibrated f = Some (s', acts)).
Proof.
  split; [exact just_calibrated_reachable|].
  apply (C10_boxes_present_when_calibrated false 0%Q just_calibrated
           just_calibrated_reachable).
Defined.

(** ** C5: what a (re)calibration writes *)

Lemma calibrate_boxes f lm s :
  pink_boxes (calibrate f lm s) =
    match calibration_start s with
    | Some cs =>
        if Qle_bool calibration_hold_time (clock f - cs)
        then snapshot lm (pink_boxes s) else pink_boxes s
    | None => pink_boxes s
    end.
Proof.
  unfold calibrate. destruct (calibration_start s); [|reflexivity].
  now destruct (Qle_bool _ _).
Qed.

Lemma auto_recalibrate_boxes f lm inside s :
  pink_boxes (auto_recalibrate f lm inside s) =
    match recalibration_timer_start s with
    | Some rs =>
        if inside && Qle_bool recalibration_hold_time (current_time f - rs)
        then snapshot lm (pink_boxes s) else pink_boxes s
    | None => pink_boxes s
    end.
Proof.
  unfold auto_recalibrate. destruct inside; simpl.
  - destruct (recalibration_timer_start s); [|reflexivity].
    now destruct (Qle_bool _ _).
  - now destruct (recalibration_timer_start s).
Qed.

(** The zones after one frame: all rewritten, or all as before. *)
Lemma frame_step_boxes s f s' acts :
  frame_step s f = Some (s', acts) ->
  pink_boxes s' =
    match face f with
    | Some lm =>
        if completes_calibration s f || completes_recalibration s f
        then snapshot lm (pink_boxes s) else pink_boxes s
    | None => pink_boxes s
    end.
Proof.
  intros Hstep. unfold completes_calibration, completes_recalibration.
  destruct (face f) as [lm|] eqn:Hface.
  - rewrite (frame_step_face s f lm Hface) in Hstep.
    destruct (recalibrated s) eqn:Hrec; simpl in Hstep.
    + apply track_inv in Hstep as (conds & inside & _ & Hi & -> & _).
      rewrite auto_recalibrate_boxes, seen_eq in *. simpl in *.
      rewrite Hi.
      destruct (calibration_start s), (recalibration_timer_start s); reflexivity.
    + injection Hstep as <- _. rewrite calibrate_boxes, seen_eq. simpl.
      destruct (calibration_start s), (recalibration_timer_start s);
        simpl; rewrite ?orb_false_r; reflexivity.
  - rewrite (frame_step_no_face s f Hface) in Hstep.
    injection Hstep as <- _. now rewrite sleep_check_keeps.
Qed.

(** C5. When a frame completes the initial calibration or an automatic
    recalibration, the zone stored for each tracked landmark, whose pixel
    position on that frame is [(x, y)], is [(x-20, x+20, y-20, y+20)]:
    all three zones are rewritten by that frame. A frame that completes
    neither, and any voice command, leaves [pink_boxes] unchanged; so
    the zones are never rewritten in part. *)
Theorem C5_zones_rewritten_together :
  forall (s s' : State) (f : Frame) (acts : list Action),
    frame_step s f = Some (s', acts) ->
    (forall lm,
        face f = Some lm ->
        completes_calibration s f || completes_recalibration s f = true ->
        forall idx x y,
          In idx tracked_idxs_x -> lm idx = (x, y) ->
          pink_boxes s' !! idx = Some (x - 20, x + 20, y - 20, y + 20)) /\
    (completes_calibration s f || completes_recalibration s f = false ->
     pink_boxes s' = pink_boxes s) /\
    (forall vo now text,
        pink_boxes (fst (voice_command vo now text s)) = pink_boxes s).
Proof.
  intros s s' f acts Hstep.
  pose proof (frame_step_boxes s f s' acts Hstep) as Hb.
  split; [|split].
  - intros lm Hface Hev idx x y Hin Hpos.
    rewrite Hface, Hev in Hb. rewrite Hb, (snapshot_lookup lm _ idx Hin), Hpos.
    reflexivity.
  - intros Hev. rewrite Hev in Hb. now destruct (face f).
  - intros vo now text. now destruct (voice_command_keeps vo now text s) as [-> _].
Qed.

(** A hold completed on a head displaced to column 110. *)
Lemma C5_zones_rewritten_together_witness :
  let s := calibrated_at_100 true (Some 1%Q) in
  let f := mkFrame (9 # 2)%Q (Some (head_at 110)) (9 # 2)%Q in
  exists s' acts,
    frame_step s f = Some (s', acts) /\
    pink_boxes s' !! forehead_idx = Some (90, 130, 30, 70) /\
    pink_boxes s' !! chin_idx = Some (90, 130, 130, 170) /\
    pink_boxes s' !! 168 = Some (90, 130, 80, 120).
Proof.
  intros s f.
  destruct (frame_step s f) as [[s' acts]|] eqn:E.
  - exists s', acts. split; [reflexivity|].
    destruct (C5_zones_rewritten_together s s' f acts E) as [H _].
    specialize (H (head_at 110) eq_refl eq_refl).
    repeat split.
    + apply (H forehead_idx 110 50); [simpl; tauto | reflexivity].
    + apply (H chin_idx 110 150); [simpl; tauto | reflexivity].
    + apply (H 168 110 100); [simpl; tauto | reflexivity].
  - vm_compute in E. discriminate E.
Defined.

(** ** C6: the initial calibration hold *)






(** ** C9: the sleep monitor *)

(** The calibration, gaze, scroll and recalibration logic never reads
    [sleep_mode]: a frame has the same effect on every other field, and
    emits the same actions, whatever the value of [sleep_mode]. *)
Lemma frame_step_sleep_free s f b s' acts :
  frame_step s f = Some (s', acts) ->
  exists s'',
    frame_step (set_sleep_mode b s) f = Some (s'', acts) /\
    set_sleep_mode false s'' = set_sleep_mode false s'.
Proof.
  intros Hstep. destruct (face f) as [lm|] eqn:Hface.
  - rewrite (frame_step_face s f lm Hface) in Hstep.
    rewrite (frame_step_face (set_sleep_mode b s) f lm Hface).
    assert (Hseen : seen f (set_sleep_mode b s) = seen f s) by now rewrite !seen_eq.
    rewrite Hseen. simpl. exists s'. now split.
  - rewrite (frame_step_no_face s f Hface) in Hstep.
    rewrite (frame_step_no_face (set_sleep_mode b s) f Hface).
    injection Hstep as <- <-. eexists. split; [reflexivity|].
    rewrite (sleep_check_keeps f s), (sleep_check_keeps f (set_sleep_mode b s)).
    reflexivity.
Qed.

Lemma frame_step_last_face s f s' acts :
  frame_step s f = Some (s', acts) ->
  (forall lm, face f = Some lm -> last_face_seen_time s' = current_time f) /\
  (face f = None -> last_face_seen_time s' = last_face_seen_time s).
Proof.
  intros Hstep. split.
  - intros lm Hface. rewrite (frame_step_face s f lm Hface) in Hstep.
    destruct (negb (recalibrated s)).
    + injection Hstep as <- _.
      destruct (calibrate_keeps f lm (seen f s)) as (_ & _ & _ & -> & _).
      now rewrite seen_eq.
    + apply track_inv in Hstep as (conds & inside & _ & _ & -> & _).
      match goal with
      | |- context [auto_recalibrate ?a ?b ?c ?x] =>
          destruct (auto_recalibrate_keeps a b c x) as (_ & _ & _ & _ & -> & _)
      end.
      now rewrite seen_eq.
  - intros Hface. rewrite (frame_step_no_face s f Hface) in Hstep.
    injection Hstep as <- _. now rewrite sleep_check_keeps.
Qed.

(** After a run, [last_face_seen_time] is the time of the last frame of
    the run with a face. *)
Lemma run_last_face vo evs : forall s0 s acts,
  run vo s0 evs = Some (s, acts) ->
  last_face_seen_time s = last_face_time (last_face_seen_time s0) evs.
Proof.
  induction evs as [|e evs IH]; intros s0 s acts Hrun.
  - simpl in Hrun. injection Hrun as <- _. reflexivity.
  - apply run_cons_inv in Hrun as (s1 & a1 & a2 & Hs & Hrest & _).
    rewrite (IH s1 s a2 Hrest). unfold last_face_time. cbn [fold_left].
    f_equal. destruct e as [f|now text]; simpl in Hs.
    + destruct (frame_step_last_face s0 f s1 a1 Hs) as [Hyes Hno].
      destruct (face f) as [lm|]; [now apply (Hyes lm) | now apply Hno].
    + injection Hs as Hv.
      destruct (voice_command_keeps vo now text s0) as (_ & _ & _ & Hl & _).
      rewrite Hv in Hl. exact Hl.
Qed.

(** C9. On a processed frame, starting awake, [sleep_mode] becomes true
    exactly when no face is detected and more than 5.0 s have passed
    since [last_face_seen_time]; it is false after every frame with a
    face, and stays true over frames without one. The frame that enters
    sleep changes no other field and emits nothing; and the evolution of
    all the other fields ([scroll_enabled], the calibration flag and
    timestamps, the zones, the scroll timers) and the emitted actions
    are the same whatever the value of [sleep_mode], so waking up changes
    nothing by itself. [last_face_seen_time] is the time of the most
    recent face detection: a frame with a face sets it to its
    [current_time], a frame without one keeps it, and after any run from
    the initial state it is the time of the last frame of the run in
    which a face was detected (the start-up time when there is none). *)
Theorem C9_sleep_monitor :
  forall (s s' : State) (f : Frame) (acts : list Action),
    frame_step s f = Some (s', acts) ->
    (sleep_mode s = false ->
     (sleep_mode s' = true <->
      face f = None /\ (5 < current_time f - last_face_seen_time s)%Q)) /\
    (face f <> None -> sleep_mode s' = false) /\
    (sleep_mode s = true -> face f = None -> sleep_mode s' = true) /\
    (face f = None -> s' = set_sleep_mode (sleep_mode s') s /\ acts = []) /\
    (forall b, exists s'',
        frame_step (set_sleep_mode b s) f = Some (s'', acts) /\
        scroll_enabled s'' = scroll_enabled s' /\
        recalibrated s'' = recalibrated s' /\
        calibration_start s'' = calibration_start s' /\
        recalibration_timer_start s'' = recalibration_timer_start s' /\
        pink_boxes s'' = pink_boxes s' /\
        last_face_seen_time s'' = last_face_seen_time s' /\
        scroll_state s'' = scroll_state s') /\
    (forall lm, face f = Some lm -> last_face_seen_time s' = current_time f) /\
    (face f = None -> last_face_seen_time s' = last_face_seen_time s) /\
    (forall vo t0 evs acts0,
        run vo (init_state t0) evs = Some (s, acts0) ->
        last_face_seen_time s = last_face_time t0 evs).
Proof.
  intros s s' f acts Hstep.
  assert (Hface_awake : forall lm, face f = Some lm -> sleep_mode s' = false).
  { intros lm Hface. rewrite (frame_step_face s f lm Hface) in Hstep.
    destruct (negb (recalibrated s)).
    - injection Hstep as <- _.
      destruct (calibrate_keeps f lm (seen f s)) as (_ & _ & -> & _).
      now rewrite seen_eq.
    - apply track_inv in Hstep as (conds & inside & _ & _ & -> & _).
      match goal with
      | |- sleep_mode (auto_recalibrate ?a ?b ?c ?d) = _ =>
          destruct (auto_recalibrate_keeps a b c d) as (_ & _ & _ & -> & _)
      end.
      now rewrite seen_eq. }
  split; [|split; [|split; [|split; [|split; [|split; [|split]]]]]].
  - intros Hawake. destruct (face f) as [lm|] eqn:Hface.
    + rewrite (Hface_awake lm eq_refl). split; [discriminate|]. now intros [? _].
    + rewrite (frame_step_no_face s f Hface) in Hstep. injection Hstep as <- _.
      unfold sleep_check, sleep_trigger_duration. rewrite Hawake.
      destruct (Qle_bool (current_time f - last_face_seen_time s) 5) eqn:E; simpl.
      * apply Qle_bool_iff in E. rewrite Hawake.
        split; [discriminate|]. intros [_ H]. lra.
      * split; [|reflexivity]. intros _. split; [reflexivity|].
        destruct (Qlt_le_dec 5 (current_time f - last_face_seen_time s)) as [H|H];
          [exact H|].
        apply Qle_bool_iff in H. congruence.
  - intros Hface. destruct (face f) as [lm|] eqn:E; [|contradiction].
    now apply (Hface_awake lm).
  - intros Hasleep Hface.
    rewrite (frame_step_no_face s f Hface) in Hstep. injection Hstep as <- _.
    unfold sleep_check. rewrite Hasleep, andb_false_r. exact Hasleep.
  - intros Hface.
    rewrite (frame_step_no_face s f Hface) in Hstep. injection Hstep as <- <-.
    split; [apply sleep_check_keeps | reflexivity].
  - intros b.
    destruct (frame_step_sleep_free s f b s' acts Hstep) as (s'' & Hs'' & Heq).
    exists s''. split; [exact Hs''|].
    destruct s'', s'. simpl in *. injection Heq as -> -> -> -> -> -> ->.
    repeat split.
  - intros lm Hface.
    exact (proj1 (frame_step_last_face s f s' acts Hstep) lm Hface).
  - intros Hface.
    exact (proj2 (frame_step_last_face s f s' acts Hstep) Hface).
  - intros vo t0 evs acts0 Hrun.
    now rewrite (run_last_face vo evs (init_state t0) s acts0 Hrun).
Qed.

(** After [calibrating_events] the most recent face detection is at
    t = 2.5; a frame without a face at t = 8.5, six seconds later: the
    state falls asleep. *)
Lemma C9_sleep_monitor_witness :
  let s := just_calibrated in
  let f := mkFrame (17 # 2)%Q None (17 # 2)%Q in
  exists s',
    frame_step s f = Some (s', []) /\
    last_face_seen_time s = last_face_time 0%Q calibrating_events /\
    last_face_time 0%Q calibrating_events = (5 # 2)%Q /\
    sleep_mode s' = true /\ s' = set_sleep_mode true s.
Proof.
  intros s f.
  destruct (frame_step s f) as [[s' acts]|] eqn:E.
  - destruct (C9_sleep_monitor s s' f acts E)
      as (Hin & _ & _ & Hsame & _ & _ & _ & Hlast).
    destruct (Hsame eq_refl) as [Hs' ->].
    assert (Hsl : sleep_mode s' = true).
    { apply (Hin eq_refl). split; reflexivity. }
    exists s'. split; [reflexivity|].
    split; [apply (Hlast false 0%Q calibrating_events []); reflexivity|].
    split; [reflexivity|]. split; [exact Hsl|].
    rewrite Hs', Hsl. reflexivity.
  - vm_compute in E. discriminate E.
Defined.

(** ** C4: the automatic recalibration hold *)

Lemma inside_true_present pb lm :
  is_all_inside_boxes pb lm = Some true -> boxes_present pb.
Proof.
  unfold is_all_inside_boxes. cbn [tracked_idxs_x inside_loop].
  destruct (pb !! forehead_idx) as [bf|] eqn:Hf; [|discriminate]. simpl.
  destruct (negb (in_box (lm forehead_idx) bf)); [discriminate|].
  destruct (pb !! chin_idx) as [bc|] eqn:Hc; [|discriminate]. simpl.
  destruct (negb (in_box (lm chin_idx) bc)); [discriminate|].
  destruct (pb !! 168) as [bm|] eqn:Hm; [|discriminate].
  intros _ idx [<-|[<-|[<-|[]]]]; eauto.
Qed.

(** A face frame in a calibrated state: zones and hold timer afterwards
    are those computed by the recalibration logic. *)
Lemma frame_step_tracking s f lm s' acts :
  recalibrated s = true ->
  face f = Some lm ->
  frame_step s f = Some (s', acts) ->
  exists inside,
    is_all_inside_boxes (pink_boxes s) lm = Some inside /\
    pink_boxes s' = pink_boxes (auto_recalibrate f lm inside s) /\
    recalibration_timer_start s'
      = recalibration_timer_start (auto_recalibrate f lm inside s) /\
    recalibrated s' = true.
Proof.
  intros Hrec Hface Hstep.
  rewrite (frame_step_face s f lm Hface), Hrec in Hstep. simpl in Hstep.
  apply track_inv in Hstep as (conds & inside & _ & Hi & -> & _).
  rewrite seen_eq in *. simpl in *. exists inside. split; [exact Hi|].
  unfold auto_recalibrate. simpl.
  destruct inside; [|now simpl].
  destruct (recalibration_timer_start s); [|now simpl].
  now destruct (Qle_bool _ _).
Qed.

Lemma frame_step_tracking_total s f lm :
  recalibrated s = true ->
  face f = Some lm ->
  is_all_inside_boxes (pink_boxes s) lm = Some true ->
  exists s' acts, frame_step s f = Some (s', acts).
Proof.
  intros Hrec Hface Hin. apply frame_step_total.
  intros _. now apply (inside_true_present _ lm).
Qed.

(** Frames of an unbroken hold started at [t0], before 3 s have elapsed. *)
Lemma hold_continues vo t0 pb mid : forall s,
  recalibrated s = true ->
  pink_boxes s = pb ->
  recalibration_timer_start s = Some t0 ->
  Forall (fun g => exists lmg,
              face g = Some lmg /\
              is_all_inside_boxes pb lmg = Some true /\
              (current_time g - t0 < 3)%Q) mid ->
  exists s1 a1,
    run vo s (List.map EvFrame mid) = Some (s1, a1) /\
    recalibrated s1 = true /\ pink_boxes s1 = pb /\
    recalibration_timer_start s1 = Some t0.
Proof.
  induction mid as [|g mid IH]; intros s Hrec Hpb Ht Hall.
  - exists s, []. now simpl.
  - inversion Hall as [|? ? (lmg & Hface & Hin & Hlt) Hrest]; subst.
    destruct (frame_step_tracking_total s g lmg Hrec Hface Hin) as (s0 & a0 & Hstep).
    destruct (frame_step_tracking s g lmg s0 a0 Hrec Hface Hstep)
      as (inside & Hi & Hb0 & Ht0 & Hr0).
    rewrite Hin in Hi. injection Hi as <-.
    unfold auto_recalibrate in Hb0, Ht0. rewrite Ht in Hb0, Ht0.
    unfold recalibration_hold_time in Hb0, Ht0.
    rewrite (Qle_bool_false _ _ Hlt) in Hb0, Ht0.
    destruct (IH s0 Hr0 Hb0 (eq_trans Ht0 Ht) Hrest) as (s1 & a1 & Hrun & H1).
    exists s1, (a0 ++ a1). split; [|exact H1].
    simpl. rewrite Hstep. simpl. rewrite Hrun. reflexivity.
Qed.

(** C4, as the code has it. In a calibrated state:
    - if a hold starts on frame [f0] (timer unset, face detected, the
      three tracked landmarks inside their zones) and every following
      frame up to the first one [f] at least 3.0 s after [f0] shows a face
      with all tracked landmarks inside their zones, then [f] re-centres
      every zone on the landmarks' positions in [f] and clears the timer;
    - a face frame with some tracked landmark outside its zone changes
      no zone and clears the timer on that frame;
    - a face frame inside the zones less than 3.0 s after the timer was
      set changes neither the zones nor the timer;
    - a frame without a face changes neither the zones nor the timer:
      a dropout does not reset the hold. *)
Theorem C4_recalibration_hold :
  forall (vo : bool) (s : State),
    recalibrated s = true ->
    (forall f0 lm0 mid f lm,
        recalibration_timer_start s = None ->
        face f0 = Some lm0 ->
        is_all_inside_boxes (pink_boxes s) lm0 = Some true ->
        Forall (fun g => exists lmg,
                    face g = Some lmg /\
                    is_all_inside_boxes (pink_boxes s) lmg = Some true /\
                    (current_time g - current_time f0 < 3)%Q) mid ->
        face f = Some lm ->
        is_all_inside_boxes (pink_boxes s) lm = Some true ->
        (3 <= current_time f - current_time f0)%Q ->
        exists s1 a1 s2 a2,
          run vo s (List.map EvFrame (f0 :: mid)) = Some (s1, a1) /\
          pink_boxes s1 = pink_boxes s /\
          recalibration_timer_start s1 = Some (current_time f0) /\
          frame_step s1 f = Some (s2, a2) /\
          pink_boxes s2 = snapshot lm (pink_boxes s) /\
          (forall idx, In idx tracked_idxs_x ->
                       pink_boxes s2 !! idx = Some (zone_around (lm idx))) /\
          recalibration_timer_start s2 = None) /\
    (forall f lm s' acts,
        face f = Some lm ->
        is_all_inside_boxes (pink_boxes s) lm = Some false ->
        frame_step s f = Some (s', acts) ->
        pink_boxes s' = pink_boxes s /\ recalibration_timer_start s' = None) /\
    (forall f lm rs s' acts,
        face f = Some lm ->
        is_all_inside_boxes (pink_boxes s) lm = Some true ->
        recalibration_timer_start s = Some rs ->
        (current_time f - rs < 3)%Q ->
        frame_step s f = Some (s', acts) ->
        pink_boxes s' = pink_boxes s /\
        recalibration_timer_start s' = Some rs) /\
    (forall f s' acts,
        face f = None ->
        frame_step s f = Some (s', acts) ->
        pink_boxes s' = pink_boxes s /\
        recalibration_timer_start s' = recalibration_timer_start s).
Proof.
  intros vo s Hrec. split; [|split; [|split]].
  - intros f0 lm0 mid f lm Hnone Hf0 Hin0 Hmid Hf Hin Hlate.
    destruct (frame_step_tracking_total s f0 lm0 Hrec Hf0 Hin0) as (s0 & a0 & Hstep0).
    destruct (frame_step_tracking s f0 lm0 s0 a0 Hrec Hf0 Hstep0)
      as (inside & Hi & Hb0 & Ht0 & Hr0).
    rewrite Hin0 in Hi. injection Hi as <-.
    unfold auto_recalibrate in Hb0, Ht0. rewrite Hnone in Hb0, Ht0.
    simpl in Hb0, Ht0.
    destruct (hold_continues vo (current_time f0) (pink_boxes s) mid s0
                Hr0 Hb0 Ht0 Hmid) as (s1 & a1 & Hrun & Hr1 & Hb1 & Ht1).
    rewrite <- Hb1 in Hin.
    destruct (frame_step_tracking_total s1 f lm Hr1 Hf Hin) as (s2 & a2 & Hstep).
    destruct (frame_step_tracking s1 f lm s2 a2 Hr1 Hf Hstep)
      as (inside & Hi & Hb2 & Ht2 & _).
    rewrite Hin in Hi. injection Hi as <-.
    unfold auto_recalibrate in Hb2, Ht2. rewrite Ht1 in Hb2, Ht2.
    unfold recalibration_hold_time in Hb2, Ht2.
    rewrite (Qle_bool_true _ _ Hlate) in Hb2, Ht2. simpl in Hb2, Ht2.
    rewrite Hb1 in Hb2.
    exists s1, (a0 ++ a1), s2, a2.
    split.
    { change (List.map EvFrame (f0 :: mid)) with (EvFrame f0 :: List.map EvFrame mid).
      simpl. rewrite Hstep0. simpl. rewrite Hrun. reflexivity. }
    split; [exact Hb1|]. split; [exact Ht1|]. split; [exact Hstep|].
    split; [exact Hb2|]. split; [|exact Ht2].
    intros idx Hidx. rewrite Hb2. now apply snapshot_lookup.
  - intros f lm s' acts Hf Hout Hstep.
    destruct (frame_step_tracking s f lm s' acts Hrec Hf Hstep)
      as (inside & Hi & Hb & Ht & _).
    rewrite Hout in Hi. injection Hi as <-. now rewrite Hb, Ht.
  - intros f lm rs s' acts Hf Hin Hrs Hlt Hstep.
    destruct (frame_step_tracking s f lm s' acts Hrec Hf Hstep)
      as (inside & Hi & Hb & Ht & _).
    rewrite Hin in Hi. injection Hi as <-.
    unfold auto_recalibrate in Hb, Ht. rewrite Hrs in Hb, Ht.
    unfold recalibration_hold_time in Hb, Ht.
    rewrite (Qle_bool_false _ _ Hlt) in Hb, Ht. now rewrite Hb, Ht.
  - intros f s' acts Hf Hstep.
    rewrite (frame_step_no_face s f Hf) in Hstep. injection Hstep as <- _.
    rewrite sleep_check_keeps. now simpl.
Qed.

(** A hold from t = 3 to t = 6.2 with the head drifting from column 100
    to column 108: the zones end centred on column 108. *)
Lemma C4_recalibration_hold_witness :
  let s := just_calibrated in
  let f0 := mkFrame 3%Q (Some (head_at 100)) 3%Q in
  let mid := [mkFrame 4%Q (Some (head_at 103)) 4%Q;
              mkFrame 5%Q (Some (head_at 106)) 5%Q] in
  let f := mkFrame (62 # 10)%Q (Some (head_at 108)) (62 # 10)%Q in
  recalibrated s = true /\
  exists s1 a1 s2 a2,
    run false s (List.map EvFrame (f0 :: mid)) = Some (s1, a1) /\
    pink_boxes s1 = pink_boxes s /\
    recalibration_timer_start s1 = Some 3%Q /\
    frame_step s1 f = Some (s2, a2) /\
    pink_boxes s2 = snapshot (head_at 108) (pink_boxes s) /\
    (forall idx, In idx tracked_idxs_x ->
                 pink_boxes s2 !! idx = Some (zone_around (head_at 108 idx))) /\
    recalibration_timer_start s2 = None.
Proof.
  intros s f0 mid f. split; [reflexivity|].
  destruct (C4_recalibration_hold false s eq_refl) as (H & _).
  apply (H f0 (head_at 100) mid f (head_at 108)).
  - reflexivity.
  - reflexivity.
  - reflexivity.
  - constructor.
    + exists (head_at 103). repeat split; reflexivity.
    + constructor; [|constructor].
      exists (head_at 106). repeat split; reflexivity.
  - reflexivity.
  - reflexivity.
  - discriminate.
Defined.

(** C4 as stated fails on a face dropout. After the calibration of
    [calibrating_events], a hold starts at t = 3; the face is lost on
    the frame at t = 4, before 3.0 s have elapsed: the timer is not
    reset. When the face is back at t = 6.5, displaced to column 105,
    the zones are re-centred at once although the hold was interrupted. *)
Lemma C4_dropout_counterexample :
  let hold_start := mkFrame 3%Q (Some (head_at 100)) 3%Q in
  let dropout := mkFrame 4%Q None 4%Q in
  let back := mkFrame (13 # 2)%Q (Some (head_at 105)) (13 # 2)%Q in
  exists s1 s2 s3,
    run false (init_state 0%Q) (calibrating_events ++ [EvFrame hold_start])
      = Some (s1, []) /\
    recalibrated s1 = true /\
    recalibration_timer_start s1 = Some 3%Q /\
    frame_step s1 dropout = Some (s2, []) /\
    recalibration_timer_start s2 = Some 3%Q /\
    pink_boxes s2 !! forehead_idx = Some (80, 120, 30, 70) /\
    frame_step s2 back = Some (s3, []) /\
    pink_boxes s3 !! forehead_idx = Some (85, 125, 30, 70).
Proof.
  intros hold_start dropout back.
  destruct (run false (init_state 0%Q) (calibrating_events ++ [EvFrame hold_start]))
    as [[s1 a1]|] eqn:E1; [|vm_compute in E1; discriminate E1].
  destruct (frame_step s1 dropout) as [[s2 a2]|] eqn:E2;
    [|vm_compute in E1; injection E1 as <- _; vm_compute in E2; discriminate E2].
  destruct (frame_step s2 back) as [[s3 a3]|] eqn:E3;
    [|vm_compute in E1; injection E1 as <- _; vm_compute in E2;
      injection E2 as <- _; vm_compute in E3; discriminate E3].
  exists s1, s2, s3.
  vm_compute in E1. injection E1 as <- <-.
  vm_compute in E2. injection E2 as <- <-.
  vm_compute in E3. injection E3 as <- <-.
  repeat split; vm_compute; reflexivity.
Qed.

(** ** Substrings and lower-casing *)

Lemma append_cons a s t : (String a s ++ t = String a (s ++ t))%string.
Proof. reflexivity. Qed.

Lemma prefix_spec w s :
  String.prefix w s = true <-> exists post, s = (w ++ post)%string.
Proof.
  revert s. induction w as [|a w IH]; intros s.
  - split; [intros _; now exists s | intros _; now destruct s].
  - destruct s as [|b s].
    + split; [discriminate | intros [post H]; discriminate H].
    + cbn [String.prefix]. destruct (Ascii.ascii_dec a b) as [->|Hne].
      * rewrite IH.
        split; intros [post H]; exists post; rewrite append_cons in *; congruence.
      * split; [discriminate|]. intros [post H].
        rewrite append_cons in H. congruence.
Qed.

(** [contains] decides the substring relation. *)
Lemma contains_spec w s :
  contains w s = true <-> exists pre post, s = (pre ++ w ++ post)%string.
Proof.
  induction s as [|b s IH]; cbn [contains].
  - rewrite prefix_spec. split.
    + intros [post H]. now exists EmptyString, post.
    + intros (pre & post & H). destruct pre; [now exists post|discriminate H].
  - rewrite orb_true_iff, IH, prefix_spec. split.
    + intros [[post H]|(pre & post & H)].
      * now exists EmptyString, post.
      * exists (String b pre), post. simpl. now rewrite H.
    + intros (pre & post & H). destruct pre as [|c pre].
      * left. now exists post.
      * right. simpl in H. injection H as _ H. now exists pre, post.
Qed.

Lemma lower_app a b : lower (a ++ b) = (lower a ++ lower b)%string.
Proof. induction a as [|c a IH]; simpl; [reflexivity | now rewrite IH]. Qed.

Lemma contains_lower w s :
  contains w s = true -> contains (lower w) (lower s) = true.
Proof.
  rewrite !contains_spec. intros (pre & post & ->).
  exists (lower pre), (lower post). now rewrite !lower_app.
Qed.

Lemma any_in_spec words command :
  any_in words command = true <->
  exists w, In w words /\ contains w command = true.
Proof. unfold any_in. apply existsb_exists. Qed.

Lemma stop_words_lower w : In w stop_words -> lower w = w.
Proof. intros [<-|[<-|[<-|[<-|[<-|[<-|[]]]]]]]; reflexivity. Qed.

Lemma stop_words_nonempty w : In w stop_words -> contains w EmptyString = false.
Proof. intros [<-|[<-|[<-|[<-|[<-|[<-|[]]]]]]]; reflexivity. Qed.

(** ** C7: Stop has the highest priority *)

(** C7. For every transcript that contains one of the Stop keywords
    as a substring (such a transcript is not empty), dispatching it sets
    [scroll_enabled] to false, whatever its prior value, the mode, and
    whatever else the transcript contains; nothing else in the state
    changes and no action is emitted. *)
Theorem C7_stop_keyword_disables_scrolling :
  forall (vo : bool) (now : Q) (text : string) (s : State) (w : string),
    In w stop_words ->
    (exists pre post, text = (pre ++ w ++ post)%string) ->
    text <> EmptyString /\
    voice_command vo now text s = (set_scroll_enabled false s, []) /\
    scroll_enabled (fst (voice_command vo now text s)) = false.
Proof.
  intros vo now text s w Hw Hsub.
  apply contains_spec in Hsub.
  assert (Hany : any_in stop_words (lower text) = true).
  { apply any_in_spec. exists w. split; [exact Hw|].
    rewrite <- (stop_words_lower w Hw). now apply contains_lower. }
  assert (Hne : text <> EmptyString).
  { intros ->. rewrite (stop_words_nonempty w Hw) in Hsub. discriminate. }
  assert (Heq : voice_command vo now text s = (set_scroll_enabled false s, [])).
  { unfold voice_command. destruct (lower text) as [|a command] eqn:Hl.
    - destruct text; [contradiction | discriminate Hl].
    - now rewrite Hany. }
  split; [exact Hne|]. split; [exact Heq|]. now rewrite Heq.
Qed.

(** The scenario of the specification, with scrolling enabled before. *)
Lemma C7_stop_keyword_disables_scrolling_witness :
  In "stop"%string stop_words /\
  scroll_enabled
    (fst (voice_command false 9%Q "please stop now" just_calibrated)) = false.
Proof.
  split; [simpl; tauto|].
  apply (C7_stop_keyword_disables_scrolling false 9%Q "please stop now"
           just_calibrated "stop").
  - simpl. tauto.
  - exists "please "%string, " now"%string. reflexivity.
Defined.

(** ** C2: one intent per utterance, by priority *)

Lemma spec_resolve_empty vo enabled : spec_resolve vo enabled EmptyString = INone.
Proof. destruct vo, enabled; reflexivity. Qed.

Lemma find_first {A} (p : A -> bool) (pre post : list A) (x : A) :
  (forall y, In y pre -> p y = false) -> p x = true ->
  List.find p (pre ++ x :: post) = Some x.
Proof.
  intros Hpre Hx. induction pre as [|y pre IH]; simpl.
  - now rewrite Hx.
  - rewrite (Hpre y) by (simpl; tauto). apply IH.
    intros z Hz. apply Hpre. simpl. tauto.
Qed.

Lemma voice_command_refines vo now text s :
  voice_command vo now text s
  = spec_effect now (spec_resolve vo (scroll_enabled s) (lower text)) s.
Proof.
  unfold voice_command. destruct (lower text) as [|a command] eqn:Hl.
  - now rewrite spec_resolve_empty.
  - unfold spec_resolve, spec_priority, voice_scroll.
    cbn [List.find]. unfold spec_matches.
    cbn [spec_keywords spec_directional negb orb].
    generalize (String a command). intros c.
    destruct (any_in stop_words c); [reflexivity|].
    destruct (any_in start_words c); [reflexivity|].
    destruct (any_in recalibrate_words c); [reflexivity|].
    destruct (any_in zoom_in_words c); [reflexivity|].
    destruct (any_in zoom_out_words c); [reflexivity|].
    destruct (any_in zoom_reset_words c); [reflexivity|].
    destruct (vo && scroll_enabled s).
    + destruct (any_in up_words c); [reflexivity|].
      destruct (any_in down_words c); [reflexivity|].
      destruct (any_in left_words c); [reflexivity|].
      destruct (any_in right_words c); reflexivity.
    + cbn [andb]. rewrite !andb_false_r. reflexivity.
Qed.

(** C2. Dispatching one transcript has the effect of exactly one intent,
    the first category of the order Stop, Start, Recalibrate, ZoomIn,
    ZoomOut, ZoomReset, Up, Down, Left, Right that matches the
    lower-cased transcript (or of no intent, when none matches): if a
    category matches and no earlier one does, the effect is that
    category's, whatever later categories match as well. At most one
    action is emitted. The directional categories are considered only
    when [voice_only_mode] and [scroll_enabled] are both true: otherwise
    no scroll action is emitted and the resolved intent is not a
    directional one. *)
Theorem C2_first_match_priority :
  forall (vo : bool) (now : Q) (text : string) (s : State),
    let command := lower text in
    let intent := spec_resolve vo (scroll_enabled s) command in
    voice_command vo now text s = spec_effect now intent s /\
    (forall pre i post,
        spec_priority = pre ++ i :: post ->
        spec_matches vo (scroll_enabled s) command i = true ->
        (forall j, In j pre -> spec_matches vo (scroll_enabled s) command j = false) ->
        intent = i /\ voice_command vo now text s = spec_effect now i s) /\
    (List.length (snd (voice_command vo now text s)) <= 1)%nat /\
    (vo && scroll_enabled s = false ->
     spec_directional intent = false /\
     forall d, scrolls d (snd (voice_command vo now text s)) = 0%nat).
Proof.
  intros vo now text s command intent.
  pose proof (voice_command_refines vo now text s) as Href.
  fold command in Href. fold intent in Href.
  split; [exact Href|]. split; [|split].
  - intros pre i post Hsplit Hi Hpre.
    assert (Hint : intent = i).
    { unfold intent, spec_resolve. rewrite Hsplit.
      now rewrite (find_first _ pre post i Hpre Hi). }
    split; [exact Hint|]. now rewrite Href, Hint.
  - rewrite Href. destruct intent; simpl; lia.
  - intros Hgate.
    assert (Hdir : spec_directional intent = false).
    { unfold intent, spec_resolve.
      destruct (List.find _ spec_priority) as [i|] eqn:Hfind; [|reflexivity].
      apply List.find_some in Hfind as [_ Hm]. unfold spec_matches in Hm.
      rewrite Hgate, orb_false_r in Hm.
      apply andb_true_iff in Hm as [_ Hm]. now destruct (spec_directional i). }
    split; [exact Hdir|]. intros d. rewrite Href.
    destruct intent; simpl in *; try reflexivity; discriminate.
Qed.

(** Transcripts matching several categories: the earlier one wins. *)
Example voice_command_stop_before_start :
  voice_command true 0%Q "start and stop" (init_state 0%Q)
  = (set_scroll_enabled false (init_state 0%Q), []).
Proof. reflexivity. Qed.

Example voice_command_start_before_zoom :
  voice_command true 0%Q "start zoom in" (init_state 0%Q)
  = (set_scroll_enabled true (init_state 0%Q), []).
Proof. reflexivity. Qed.

Example voice_command_left_voice_only :
  snd (voice_command true 0%Q "left" (init_state 0%Q)) = [Scroll Left] /\
  snd (voice_command false 0%Q "left" (init_state 0%Q)) = [].
Proof. split; reflexivity. Qed.

(** ** C3: when [start_time] is set *)

Lemma run_app vo a : forall b s,
  run vo s (a ++ b) =
    match run vo s a with
    | Some (s1, a1) =>
        match run vo s1 b with
        | Some (s2, a2) => Some (s2, a1 ++ a2)
        | None => None
        end
    | None => None
    end.
Proof.
  induction a as [|e a IH]; intros b s.
  - simpl. destruct (run vo s b) as [[s2 a2]|]; reflexivity.
  - simpl. destruct (step vo s e) as [[s1 a1]|]; [|reflexivity]. simpl.
    rewrite IH. destruct (run vo s1 a) as [[s2 a2]|]; [|reflexivity]. simpl.
    destruct (run vo s2 b) as [[s3 a3]|]; [|reflexivity]. simpl.
    now rewrite app_assoc.
Qed.

Lemma run_single vo s e :
  run vo s [e] =
    match step vo s e with
    | Some (s1, a1) => Some (s1, a1 ++ [])
    | None => None
    end.
Proof. simpl. now destruct (step vo s e) as [[s1 a1]|]. Qed.

Lemma held_since_app breaks vo a : forall b s,
  held_since breaks vo s (a ++ b) =
    held_since breaks vo s a
    && match run vo s a with
       | Some (s1, _) => held_since breaks vo s1 b
       | None => true
       end.
Proof.
  induction a as [|e a IH]; intros b s.
  - reflexivity.
  - simpl. destruct (step vo s e) as [[s1 a1]|]; simpl.
    + rewrite IH, andb_assoc.
      now destruct (run vo s1 a) as [[s2 a2]|].
    + now rewrite !andb_true_r.
Qed.

(** How one event changes a set [start_time]: it is cleared exactly by a
    frame that evaluates the condition to false with scrolling enabled,
    and kept as it is by every other event. *)
Lemma step_start_of vo d s e s' acts st :
  step vo s e = Some (s', acts) ->
  start_of d s = Some st ->
  if condition_false_enabled d s e
  then start_of d s' = None
  else start_of d s' = Some st.
Proof.
  unfold condition_false_enabled, condition_false, trigger_condition, start_of.
  intros Hstep Hst. destruct e as [f|now text]; simpl in Hstep.
  - destruct (face f) as [lm|] eqn:Hface.
    + rewrite (frame_step_face s f lm Hface) in Hstep.
      destruct (recalibrated s); simpl in Hstep.
      * apply track_inv in Hstep as (conds & inside & Hc & _ & -> & _).
        rewrite seen_eq in *. simpl in Hc. rewrite Hc.
        match goal with
        | |- context [auto_recalibrate ?a ?b ?c ?x] =>
            destruct (auto_recalibrate_keeps a b c x) as (_ & _ & _ & _ & _ & ->)
        end.
        simpl.
        destruct (scroll_frame_dir (scroll_enabled s) (current_time f) conds
                    (scroll_state s) d) as [-> _].
        destruct (scroll_enabled s); simpl; [|exact Hst].
        destruct (cond_of d conds); simpl.
        -- rewrite (debounce_held _ _ _ Hst). now destruct (_ && _).
        -- reflexivity.
      * injection Hstep as <- _. rewrite andb_false_r.
        destruct (calibrate_keeps f lm (seen f s)) as (_ & _ & _ & _ & ->).
        now rewrite seen_eq.
    + rewrite (frame_step_no_face s f Hface) in Hstep.
      injection Hstep as <- _. rewrite andb_false_r, sleep_check_keeps.
      exact Hst.
  - injection Hstep as Hv. rewrite andb_false_r.
    destruct (voice_command_keeps vo now text s) as (_ & _ & _ & _ & Hss & _).
    rewrite Hv in Hss. simpl in Hss. now rewrite Hss.
Qed.

Lemma since_set_general vo d evs : forall s0 s acts,
  start_of d s0 = None ->
  run vo s0 evs = Some (s, acts) ->
  (start_of d s <> None <->
   set_and_held (condition_false_enabled d) vo s0 evs d).
Proof.
  induction evs as [|e evs IH] using rev_ind; intros s0 s acts H0 Hrun.
  - simpl in Hrun. injection Hrun as <- _. split.
    + intros H. contradiction.
    + intros (pre & e & post & ? & ? & ? & ? & Heq & _).
      destruct pre; discriminate Heq.
  - rewrite run_app in Hrun.
    destruct (run vo s0 evs) as [[sm am]|] eqn:Hm; [|discriminate].
    rewrite run_single in Hrun.
    destruct (step vo sm e) as [[s' a']|] eqn:He; [|discriminate].
    injection Hrun as <- _.
    specialize (IH s0 sm am H0 Hm).
    split.
    + intros Hset. destruct (start_of d sm) as [st|] eqn:Hsm.
      * destruct IH as [IH _].
        destruct IH as (pre & e0 & post & s1 & a1 & s2 & a2 & Heq & Hpre & Hstep
                        & Hs1 & Hs2 & Hheld); [discriminate|].
        exists pre, e0, (post ++ [e]), s1, a1, s2, a2.
        split; [rewrite Heq, <- app_assoc; reflexivity|].
        do 4 (split; [assumption|]).
        rewrite held_since_app, Hheld. simpl.
        rewrite Heq, run_app, Hpre in Hm. simpl in Hm. rewrite Hstep in Hm.
        simpl in Hm.
        destruct (run vo s2 post) as [[s3 a3]|]; [|reflexivity].
        injection Hm as -> _. simpl. rewrite He.
        pose proof (step_start_of vo d sm e s' a' st He Hsm) as Hone.
        destruct (condition_false_enabled d sm e); [contradiction|reflexivity].
      * exists evs, e, [], sm, am, s', a'. repeat split; auto.
    + intros (pre & e0 & post & s1 & a1 & s2 & a2 & Heq & Hpre & Hstep
              & Hs1 & Hs2 & Hheld).
      destruct post as [|x post _] using rev_ind.
      * apply app_inj_tail in Heq as [<- <-].
        rewrite Hm in Hpre. injection Hpre as <- _.
        rewrite He in Hstep. injection Hstep as <- _. exact Hs2.
      * change (pre ++ e0 :: post ++ [x]) with (pre ++ (e0 :: post) ++ [x]) in Heq.
        rewrite app_assoc in Heq. apply app_inj_tail in Heq as [-> <-].
        rewrite held_since_app in Hheld.
        apply andb_true_iff in Hheld as [Hheld Hlast].
        assert (Hsm : start_of d sm <> None).
        { apply IH. exists pre, e0, post, s1, a1, s2, a2. auto 10. }
        rewrite run_app, Hpre in Hm. simpl in Hm. rewrite Hstep in Hm.
        simpl in Hm.
        destruct (run vo s2 post) as [[s3 a3]|]; [|discriminate].
        injection Hm as -> _. simpl in Hlast. rewrite He in Hlast.
        destruct (start_of d sm) as [st|] eqn:Hst; [|contradiction].
        pose proof (step_start_of vo d sm e s' a' st He Hst) as Hone.
        destruct (condition_false_enabled d sm e); [discriminate|].
        rewrite Hone. discriminate.
Qed.

(** Frames on which the debouncer does not run, or runs disabled. *)
Lemma frame_step_leaves_timers s f s' a :
  frame_step s f = Some (s', a) ->
  scroll_enabled s = false \/ face f = None \/ recalibrated s = false ->
  scroll_state s' = scroll_state s.
Proof.
  intros Hstep Hwhy. destruct (face f) as [lm|] eqn:Hface.
  - rewrite (frame_step_face s f lm Hface) in Hstep.
    destruct (recalibrated s) eqn:Hrec; simpl in Hstep.
    + destruct Hwhy as [Hoff|[H|H]]; [|discriminate H|discriminate H].
      apply track_inv in Hstep as (conds & inside & _ & _ & -> & _).
      match goal with
      | |- context [auto_recalibrate ?a ?b ?c ?x] =>
          destruct (auto_recalibrate_keeps a b c x) as (_ & _ & _ & _ & _ & ->)
      end.
      rewrite seen_eq. simpl. now rewrite Hoff.
    + injection Hstep as <- _.
      destruct (calibrate_keeps f lm (seen f s)) as (_ & _ & _ & _ & ->).
      now rewrite seen_eq.
  - rewrite (frame_step_no_face s f Hface) in Hstep.
    injection Hstep as <- _. now rewrite sleep_check_keeps.
Qed.

(** C3, as the code has it. After any run of frames and utterances from
    the initial state, [start_time] of a direction is set if and only if
    some event set it (it was unset before that event and set after it)
    and, since then, no frame evaluated the direction's condition to
    false while [scroll_enabled] was true. A frame processed while
    [scroll_enabled] is false, a frame without a face and a frame
    processed while uncalibrated leave [start_time] (and the whole
    [scroll_state]) as it is, whatever the condition. *)
Theorem C3_start_time_set_iff_held :
  forall (vo : bool) (t0 : Q) (evs : list Event) (s : State)
         (acts : list Action) (d : Direction),
    run vo (init_state t0) evs = Some (s, acts) ->
    (start_of d s <> None <->
     set_and_held (condition_false_enabled d) vo (init_state t0) evs d) /\
    (forall f s' a,
        frame_step s f = Some (s', a) ->
        scroll_enabled s = false \/ face f = None \/ recalibrated s = false ->
        start_of d s' = start_of d s /\ scroll_state s' = scroll_state s).
Proof.
  intros vo t0 evs s acts d Hrun. split.
  - apply (since_set_general vo d evs (init_state t0) s acts);
      [now destruct d | exact Hrun].
  - intros f s' a Hstep Hwhy.
    pose proof (frame_step_leaves_timers s f s' a Hstep Hwhy) as Hss.
    split; [unfold start_of; now rewrite Hss | exact Hss].
Qed.

(** After [stop_then_neutral] scrolling is disabled and the start time of
    "left" is 3; a further frame with the head to the left again, at
    t = 5, leaves it at 3. *)
Lemma C3_start_time_set_iff_held_witness :
  set_and_held (condition_false_enabled Left) false (init_state 0%Q)
    stop_then_neutral Left /\
  exists s acts s' a,
    run false (init_state 0%Q) stop_then_neutral = Some (s, acts) /\
    frame_step s (mkFrame 5%Q (Some (head_at 60)) 5%Q) = Some (s', a) /\
    start_of Left s' = start_of Left s /\ start_of Left s = Some 3%Q.
Proof.
  destruct (run false (init_state 0%Q) stop_then_neutral) as [[s acts]|] eqn:E;
    [|vm_compute in E; discriminate E].
  destruct (C3_start_time_set_iff_held false 0%Q stop_then_neutral s acts Left E)
    as [Hiff Hkeep].
  assert (Hst : start_of Left s = Some 3%Q).
  { vm_compute in E. injection E as <- _. reflexivity. }
  assert (Hoff : scroll_enabled s = false).
  { vm_compute in E. injection E as <- _. reflexivity. }
  split.
  - apply Hiff. rewrite Hst. discriminate.
  - destruct (frame_step s (mkFrame 5%Q (Some (head_at 60)) 5%Q))
      as [[s' a]|] eqn:E5.
    + exists s, acts, s', a. split; [reflexivity|]. split; [exact E5|].
      split; [|exact Hst].
      apply (Hkeep (mkFrame 5%Q (Some (head_at 60)) 5%Q) s' a E5).
      left. exact Hoff.
    + vm_compute in E. injection E as <- _. vm_compute in E5. discriminate E5.
Defined.

(** C3 as stated fails: after [stop_then_neutral] the start time of
    "left" is still set, although the last frame evaluated the left
    condition to false; so the condition has not been true on every
    processed frame since the start time was set. *)
Lemma C3_disabled_counterexample :
  exists s acts,
    run false (init_state 0%Q) stop_then_neutral = Some (s, acts) /\
    forallb (admissible false) stop_then_neutral = true /\
    start_of Left s = Some 3%Q /\
    ~ set_and_held (condition_false Left) false (init_state 0%Q)
        stop_then_neutral Left.
Proof.
  destruct (run false (init_state 0%Q) stop_then_neutral) as [[s acts]|] eqn:E;
    [|vm_compute in E; discriminate E].
  exists s, acts. split; [reflexivity|]. split; [reflexivity|].
  vm_compute in E. injection E as <- <-. split; [reflexivity|].
  intros (pre & e & post & s1 & a1 & s2 & a2 & Heq & Hpre & Hstep
          & Hs1 & Hs2 & Hheld).
  unfold stop_then_neutral, calibrating_events in Heq. simpl in Heq.
  destruct pre as [|p0 [|p1 [|p2 [|p3 [|p4 pre]]]]];
    simpl in Heq; injection Heq; intros; subst;
    try (destruct pre; discriminate);
    vm_compute in Hpre; injection Hpre; intros; subst;
    vm_compute in Hstep; injection Hstep; intros; subst;
    try (vm_compute in Hs1; discriminate Hs1);
    try (apply Hs2; vm_compute; reflexivity);
    try (vm_compute in Hheld; discriminate Hheld).
Qed.

(** * Further properties of the control layer *)

(** ** The gaze-zone evaluator *)

Lemma fold_left_add_bounds (l : list Z) : forall a lo hi,
  (forall x, In x l -> lo <= x <= hi) ->
  a + lo * Z.of_nat (List.length l) <= fold_left Z.add l a
    <= a + hi * Z.of_nat (List.length l).
Proof.
  induction l as [|y l IH]; intros a lo hi Hb.
  - simpl. lia.
  - assert (Hy : lo <= y <= hi) by (apply Hb; simpl; tauto).
    assert (Hl : forall x, In x l -> lo <= x <= hi)
      by (intros x Hx; apply Hb; simpl; tauto).
    specialize (IH (a + y) lo hi Hl).
    change (fold_left Z.add (y :: l) a) with (fold_left Z.add l (a + y)).
    rewrite length_cons, Nat2Z.inj_succ. lia.
Qed.

Lemma mean_int_bounds :
  forall (l : list Z) (lo hi : Z),
    l <> [] ->
    (forall x, In x l -> lo <= x <= hi) ->
    lo <= mean_int l <= hi.
Proof.
  intros l lo hi Hne Hb. unfold mean_int.
  pose proof (fold_left_add_bounds l 0 lo hi Hb) as Hsum.
  set (n := Z.of_nat (List.length l)) in *.
  assert (Hn : 0 < n).
  { subst n. destruct l; [contradiction | rewrite length_cons; lia]. }
  split.
  - apply Z.le_trans with (Z.quot (lo * n) n).
    + rewrite Z.quot_mul by lia. lia.
    + apply Z.quot_le_mono; lia.
  - apply Z.le_trans with (Z.quot (hi * n) n).
    + apply Z.quot_le_mono; lia.
    + rewrite Z.quot_mul by lia. lia.
Qed.

(** X1. For a non-empty list of at most 2^20 integers of magnitude at
    most 2^31 (pixel coordinates are far inside this range, where the
    sum is exact in double precision and the rounded mean cannot reach
    the next integer, so that [mean_int] is the value of
    [int(np.mean(l))]), the truncated mean lies between any lower and
    upper bound of the elements, also for negative coordinates, where
    the truncation is toward zero. *)
Theorem mean_int_between :
  forall (l : list Z) (lo hi : Z),
    l <> [] ->
    Z.of_nat (List.length l) <= 2 ^ 20 ->
    (forall x, In x l -> Z.abs x <= 2 ^ 31) ->
    (forall x, In x l -> lo <= x <= hi) ->
    lo <= mean_int l <= hi.
Proof.
  intros l lo hi Hne _ _ Hb. now apply mean_int_bounds.
Qed.

Lemma mean_int_between_witness :
  [-7; -2; -2] <> [] /\ -7 <= mean_int [-7; -2; -2] <= -2.
Proof.
  split; [discriminate|].
  apply (mean_int_between [-7; -2; -2] (-7) (-2)).
  - discriminate.
  - simpl. lia.
  - intros x [<-|[<-|[<-|[]]]]; simpl; lia.
  - intros x [<-|[<-|[<-|[]]]]; lia.
Defined.

Lemma in_box_bounds p b :
  in_box p b = true <->
  box_left b <= fst p <= box_right b /\ box_top b <= snd p <= box_bottom b.
Proof.
  destruct p as [px py], b as [[[l r] t] bo]. unfold in_box. simpl.
  rewrite !andb_true_iff, !Z.leb_le. tauto.
Qed.

(** The three lookups and tests behind a positive [is_all_inside_boxes]. *)
Lemma inside_true_inv pb lm :
  is_all_inside_boxes pb lm = Some true ->
  exists bf bc bm,
    pb !! forehead_idx = Some bf /\ pb !! chin_idx = Some bc /\
    pb !! 168 = Some bm /\
    in_box (lm forehead_idx) bf = true /\ in_box (lm chin_idx) bc = true /\
    in_box (lm 168) bm = true.
Proof.
  unfold is_all_inside_boxes. cbn [tracked_idxs_x inside_loop].
  destruct (pb !! forehead_idx) as [bf|]; [|discriminate]. simpl.
  destruct (in_box (lm forehead_idx) bf) eqn:H1; [|discriminate]. simpl.
  destruct (pb !! chin_idx) as [bc|]; [|discriminate]. simpl.
  destruct (in_box (lm chin_idx) bc) eqn:H2; [|discriminate]. simpl.
  destruct (pb !! 168) as [bm|]; [|discriminate]. simpl.
  destruct (in_box (lm 168) bm) eqn:H3; [|discriminate]. simpl.
  intros _. exists bf, bc, bm. auto 10.
Qed.

(** The conditions computed from three present boxes. *)
Lemma gaze_conditions_eq pb lm bf bc bm :
  pb !! forehead_idx = Some bf -> pb !! chin_idx = Some bc ->
  pb !! 168 = Some bm ->
  gaze_conditions pb lm =
    Some (mkConds
            (mean_int [fst (lm forehead_idx); fst (lm chin_idx); fst (lm 168)]
               <? Z.min (Z.min (box_left bf) (box_left bc)) (box_left bm))
            (mean_int [fst (lm forehead_idx); fst (lm chin_idx); fst (lm 168)]
               >? Z.max (Z.max (box_right bf) (box_right bc)) (box_right bm))
            (snd (lm forehead_idx) <? box_top bf)
            (snd (lm chin_idx) >? box_bottom bc)).
Proof.
  intros Hf Hc Hm. unfold gaze_conditions. cbn [tracked_idxs_x mapM].
  rewrite Hf, Hc, Hm. reflexivity.
Qed.

Lemma inside_no_trigger :
  forall (pb : gmap Z Box) (lm : Landmarks),
    is_all_inside_boxes pb lm = Some true ->
    gaze_conditions pb lm = Some (mkConds false false false false).
Proof.
  intros pb lm Hin.
  destruct (inside_true_inv pb lm Hin)
    as (bf & bc & bm & Hf & Hc & Hm & H1 & H2 & H3).
  rewrite (gaze_conditions_eq pb lm bf bc bm Hf Hc Hm).
  apply in_box_bounds in H1, H2, H3.
  set (xs := [fst (lm forehead_idx); fst (lm chin_idx); fst (lm 168)]).
  set (ol := Z.min (Z.min (box_left bf) (box_left bc)) (box_left bm)).
  set (or := Z.max (Z.max (box_right bf) (box_right bc)) (box_right bm)).
  assert (Hmean : ol <= mean_int xs <= or).
  { apply mean_int_bounds; [discriminate|].
    subst xs ol or. intros x [<-|[<-|[<-|[]]]]; lia. }
  f_equal. f_equal.
  - apply Z.ltb_ge. lia.
  - rewrite Z.gtb_ltb. apply Z.ltb_ge. lia.
  - apply Z.ltb_ge. lia.
  - rewrite Z.gtb_ltb. apply Z.ltb_ge. lia.
Qed.

(** X2. When all tracked landmarks are inside their boxes, none of the
    four trigger conditions holds: the recalibration hold and the scroll
    triggers exclude each other. *)
Theorem inside_boxes_no_trigger :
  forall (pb : gmap Z Box) (lm : Landmarks),
    is_all_inside_boxes pb lm = Some true ->
    gaze_conditions pb lm = Some (mkConds false false false false).
Proof. exact inside_no_trigger. Qed.

Lemma inside_boxes_no_trigger_witness :
  gaze_conditions (snapshot (head_at 100) ∅) (head_at 112)
  = Some (mkConds false false false false).
Proof.
  apply (inside_boxes_no_trigger (snapshot (head_at 100) ∅) (head_at 112)).
  reflexivity.
Defined.

Lemma scroll_frame_neutral e t ss :
  snd (scroll_frame e t (mkConds false false false false) ss) = [].
Proof. unfold scroll_frame, process_scroll. now destruct e. Qed.

(** X3. A frame that emits a scroll action never recalibrates: it leaves
    the zones as they are and clears the recalibration hold timer. *)
Theorem scrolling_frame_resets_hold :
  forall (s s' : State) (f : Frame) (acts : list Action),
    frame_step s f = Some (s', acts) ->
    acts <> [] ->
    pink_boxes s' = pink_boxes s /\ recalibration_timer_start s' = None.
Proof.
  intros s s' f acts Hstep Hacts.
  destruct (face f) as [lm|] eqn:Hface.
  - rewrite (frame_step_face s f lm Hface) in Hstep.
    destruct (negb (recalibrated s)).
    + injection Hstep as _ <-. contradiction.
    + apply track_inv in Hstep as (conds & inside & Hc & Hi & -> & ->).
      destruct inside.
      * rewrite (inside_no_trigger _ _ Hi) in Hc. injection Hc as <-.
        rewrite scroll_frame_neutral in Hacts. contradiction.
      * rewrite seen_eq. now simpl.
  - rewrite (frame_step_no_face s f Hface) in Hstep.
    injection Hstep as _ <-. contradiction.
Qed.

(** A hold in progress and the head far to the left: one scroll, and the
    hold timer is cleared. *)
Lemma scrolling_frame_resets_hold_witness :
  let s := calibrated_at_100 true (Some 1%Q) in
  let f := mkFrame 2%Q (Some (head_at 40)) 2%Q in
  exists s',
    frame_step s f = Some (s', [Scroll Left]) /\
    pink_boxes s' = pink_boxes s /\ recalibration_timer_start s' = None.
Proof.
  intros s f.
  destruct (frame_step s f) as [[s' acts]|] eqn:E.
  - assert (Ha : acts = [Scroll Left]).
    { vm_compute in E. now injection E as _ <-. }
    exists s'. split; [now rewrite Ha|].
    apply (scrolling_frame_resets_hold s s' f acts E).
    rewrite Ha. discriminate.
  - vm_compute in E. discriminate E.
Defined.

Lemma in_zone_around p' p :
  in_box p' (zone_around p) = true <->
  Z.abs (fst p' - fst p) <= 20 /\ Z.abs (snd p' - snd p) <= 20.
Proof.
  rewrite in_box_bounds. destruct p as [x y], p' as [x' y'].
  unfold zone_around, dead_zone. simpl. lia.
Qed.

(** X4. The dead zone: right after a snapshot on landmarks [lm], a face
    [lm'] is inside all boxes exactly when each tracked landmark is
    within 20 pixels of its calibrated position, horizontally and
    vertically; the check never fails on a missing box. *)
Theorem snapshot_dead_zone :
  forall (pb : gmap Z Box) (lm lm' : Landmarks),
    exists inside,
      is_all_inside_boxes (snapshot lm pb) lm' = Some inside /\
      (inside = true <->
       forall idx, In idx tracked_idxs_x ->
                   Z.abs (fst (lm' idx) - fst (lm idx)) <= 20 /\
                   Z.abs (snd (lm' idx) - snd (lm idx)) <= 20).
Proof.
  intros pb lm lm'.
  unfold is_all_inside_boxes. cbn [tracked_idxs_x inside_loop].
  rewrite !snapshot_lookup by (simpl; tauto). simpl.
  pose proof (in_zone_around (lm' forehead_idx) (lm forehead_idx)) as Hf.
  pose proof (in_zone_around (lm' chin_idx) (lm chin_idx)) as Hc.
  pose proof (in_zone_around (lm' 168) (lm 168)) as Hm.
  destruct (in_box (lm' forehead_idx) (zone_around (lm forehead_idx))); simpl.
  - destruct (in_box (lm' chin_idx) (zone_around (lm chin_idx))); simpl.
    + destruct (in_box (lm' 168) (zone_around (lm 168))); simpl.
      * exists true. split; [reflexivity|]. split; [|reflexivity].
        intros _ idx [<-|[<-|[<-|[]]]]; [apply Hf|apply Hc|apply Hm]; reflexivity.
      * exists false. split; [reflexivity|]. split; [discriminate|].
        intros H. apply Hm, H. tauto.
    + exists false. split; [reflexivity|]. split; [discriminate|].
      intros H. apply Hc, H. tauto.
  - exists false. split; [reflexivity|]. split; [discriminate|].
    intros H. apply Hf, H. tauto.
Qed.

(** ** What a frame emits *)

Lemma process_scroll_acts e t d c ss :
  exists b : bool,
    snd (process_scroll e t d c ss) = (if b then [Scroll d] else []) /\
    (b = true -> c = true /\ e = true).
Proof.
  unfold process_scroll. destruct e; simpl; [|exists false; now split].
  destruct c.
  - destruct (start_time (get_dir d ss)).
    + destruct (_ && _); [exists true | exists false]; now split.
    + exists true. now split.
  - exists false. now split.
Qed.

Lemma frame_acts_cases :
  forall (s s' : State) (f : Frame) (acts : list Action),
    frame_step s f = Some (s', acts) ->
    exists bl br bu bd : bool,
      acts = (if bl then [Scroll Left] else [])
             ++ (if br then [Scroll Right] else [])
             ++ (if bu then [Scroll Up] else [])
             ++ (if bd then [Scroll Down] else []) /\
      (bl || br || bu || bd = true ->
       scroll_enabled s = true /\ recalibrated s = true /\
       exists lm c,
         face f = Some lm /\ gaze_conditions (pink_boxes s) lm = Some c /\
         (bl = true -> c_left c = true) /\ (br = true -> c_right c = true) /\
         (bu = true -> c_up c = true) /\ (bd = true -> c_down c = true)).
Proof.
  intros s s' f acts Hstep.
  assert (Hnone : acts = [] ->
                  exists bl br bu bd : bool,
                    acts = (if bl then [Scroll Left] else [])
                           ++ (if br then [Scroll Right] else [])
                           ++ (if bu then [Scroll Up] else [])
                           ++ (if bd then [Scroll Down] else []) /\
                    (bl || br || bu || bd = true ->
                     scroll_enabled s = true /\ recalibrated s = true /\
                     exists lm c,
                       face f = Some lm /\
                       gaze_conditions (pink_boxes s) lm = Some c /\
                       (bl = true -> c_left c = true) /\
                       (br = true -> c_right c = true) /\
                       (bu = true -> c_up c = true) /\
                       (bd = true -> c_down c = true))).
  { intros ->. exists false, false, false, false. split; [reflexivity|].
    discriminate. }
  destruct (face f) as [lm|] eqn:Hface.
  - rewrite (frame_step_face s f lm Hface) in Hstep.
    destruct (recalibrated s) eqn:Hrec; simpl in Hstep.
    + apply track_inv in Hstep as (conds & inside & Hc & _ & _ & ->).
      rewrite seen_eq in *. simpl in *. unfold scroll_frame.
      destruct (process_scroll_acts (scroll_enabled s) (current_time f) Left
                  (c_left conds) (scroll_state s)) as (bl & Hl & Hbl).
      destruct (process_scroll (scroll_enabled s) (current_time f) Left
                  (c_left conds) (scroll_state s)) as [ss1 a1].
      destruct (process_scroll_acts (scroll_enabled s) (current_time f) Right
                  (c_right conds) ss1) as (br & Hr & Hbr).
      destruct (process_scroll (scroll_enabled s) (current_time f) Right
                  (c_right conds) ss1) as [ss2 a2].
      destruct (process_scroll_acts (scroll_enabled s) (current_time f) Up
                  (c_up conds) ss2) as (bu & Hu & Hbu).
      destruct (process_scroll (scroll_enabled s) (current_time f) Up
                  (c_up conds) ss2) as [ss3 a3].
      destruct (process_scroll_acts (scroll_enabled s) (current_time f) Down
                  (c_down conds) ss3) as (bd & Hd & Hbd).
      destruct (process_scroll (scroll_enabled s) (current_time f) Down
                  (c_down conds) ss3) as [ss4 a4].
      simpl in *. subst a1 a2 a3 a4.
      exists bl, br, bu, bd. split; [reflexivity|].
      intros Hany. split.
      * destruct bl; [now apply Hbl|]. destruct br; [now apply Hbr|].
        destruct bu; [now apply Hbu|]. destruct bd; [now apply Hbd|].
        discriminate.
      * split; [reflexivity|]. exists lm, conds.
        split; [reflexivity|]. split; [exact Hc|].
        repeat split; intros Hb; [apply Hbl|apply Hbr|apply Hbu|apply Hbd];
          exact Hb.
    + injection Hstep as _ <-. now apply Hnone.
  - rewrite (frame_step_no_face s f Hface) in Hstep.
    injection Hstep as _ <-. now apply Hnone.
Qed.

(** X5. The actions of a frame are scroll actions, at most one per
    direction, in the order left, right, up, down; a direction is among
    them only if scrolling is enabled, a face is detected in a
    calibrated state, and the direction's condition holds. The video
    loop never zooms. *)
Theorem frame_actions_shape :
  forall (s s' : State) (f : Frame) (acts : list Action),
    frame_step s f = Some (s', acts) ->
    exists bl br bu bd : bool,
      acts = (if bl then [Scroll Left] else [])
             ++ (if br then [Scroll Right] else [])
             ++ (if bu then [Scroll Up] else [])
             ++ (if bd then [Scroll Down] else []) /\
      (bl || br || bu || bd = true ->
       scroll_enabled s = true /\ recalibrated s = true /\
       exists lm c,
         face f = Some lm /\ gaze_conditions (pink_boxes s) lm = Some c /\
         (bl = true -> c_left c = true) /\ (br = true -> c_right c = true) /\
         (bu = true -> c_up c = true) /\ (bd = true -> c_down c = true)).
Proof. exact frame_acts_cases. Qed.

Lemma frame_actions_shape_witness :
  let s := calibrated_at_100 true None in
  let f := mkFrame 2%Q (Some (head_at 40)) 2%Q in
  exists s' acts bl br bu bd,
    frame_step s f = Some (s', acts) /\
    acts = (if bl : bool then [Scroll Left] else [])
           ++ (if br : bool then [Scroll Right] else [])
           ++ (if bu : bool then [Scroll Up] else [])
           ++ (if bd : bool then [Scroll Down] else []).
Proof.
  intros s f.
  destruct (frame_step s f) as [[s' acts]|] eqn:E.
  - destruct (frame_actions_shape s s' f acts E) as (bl & br & bu & bd & H & _).
    exists s', acts, bl, br, bu, bd. now split.
  - vm_compute in E. discriminate E.
Defined.

(** ** Invariants of the executions *)

Lemma run_invariant (P : State -> Prop) vo :
  (forall s f s' a, P s -> frame_step s f = Some (s', a) -> P s') ->
  (forall now text s, P s -> P (fst (voice_command vo now text s))) ->
  forall evs s s' acts, P s -> run vo s evs = Some (s', acts) -> P s'.
Proof.
  intros Hframe Hvoice evs.
  induction evs as [|e evs IH]; intros s s' acts HP Hrun.
  - simpl in Hrun. injection Hrun as <- _. exact HP.
  - apply run_cons_inv in Hrun as (s1 & a1 & a2 & Hs & Hrest & _).
    apply (IH s1 s' a2); [|exact Hrest].
    destruct e as [f|now text]; simpl in Hs.
    + eapply Hframe; eauto.
    + injection Hs as Hv.
      replace s1 with (fst (voice_command vo now text s)) by now rewrite Hv.
      now apply Hvoice.
Qed.

Lemma tracked_dec idx : {In idx tracked_idxs_x} + {~ In idx tracked_idxs_x}.
Proof. apply (In_dec Z.eq_dec). Qed.

Lemma snapshot_lookup_other lm pb idx :
  ~ In idx tracked_idxs_x -> snapshot lm pb !! idx = pb !! idx.
Proof.
  intros Hn. unfold snapshot. simpl.
  rewrite !lookup_insert_ne; [reflexivity | | |];
    intros <-; apply Hn; simpl; tauto.
Qed.

(** A snapshot overwrites the previous one wholesale. *)
Lemma snapshot_overwrite lm lm' pb :
  snapshot lm (snapshot lm' pb) = snapshot lm pb.
Proof.
  apply map_eq. intros idx. destruct (tracked_dec idx) as [Hin|Hn].
  - now rewrite !snapshot_lookup.
  - now rewrite !snapshot_lookup_other.
Qed.

Lemma boxes_shape_step s f s' a :
  (pink_boxes s = ∅ \/ exists lm, pink_boxes s = snapshot lm ∅) ->
  frame_step s f = Some (s', a) ->
  pink_boxes s' = ∅ \/ exists lm, pink_boxes s' = snapshot lm ∅.
Proof.
  intros Hs Hstep. rewrite (frame_step_boxes s f s' a Hstep).
  destruct (face f) as [lm|]; [|exact Hs].
  destruct (_ || _); [|exact Hs].
  right. exists lm. destruct Hs as [->|[lm0 ->]]; [reflexivity|].
  apply snapshot_overwrite.
Qed.

Lemma reachable_boxes_shape_aux vo t0 s :
  reachable vo t0 s ->
  pink_boxes s = ∅ \/ exists lm, pink_boxes s = snapshot lm ∅.
Proof.
  intros (evs & acts & _ & Hrun).
  apply (run_invariant
           (fun s => pink_boxes s = ∅ \/ exists lm, pink_boxes s = snapshot lm ∅)
           vo boxes_shape_step) with (evs := evs) (s := init_state t0) (acts := acts).
  - intros now text s0 H.
    now destruct (voice_command_keeps vo now text s0) as [-> _].
  - now left.
  - exact Hrun.
Qed.

(** X6. In every reachable state [pink_boxes] is empty or is the
    snapshot of one face: its keys are tracked landmark indices, and
    each box is 40 pixels wide and 40 pixels high. *)
Theorem reachable_boxes_shape :
  forall (vo : bool) (t0 : Q) (s : State),
    reachable vo t0 s ->
    (pink_boxes s = ∅ \/ exists lm, pink_boxes s = snapshot lm ∅) /\
    (forall idx b,
        pink_boxes s !! idx = Some b ->
        In idx tracked_idxs_x /\
        box_right b = box_left b + 40 /\ box_bottom b = box_top b + 40).
Proof.
  intros vo t0 s Hr. pose proof (reachable_boxes_shape_aux vo t0 s Hr) as Hs.
  split; [exact Hs|]. intros idx b Hb.
  destruct Hs as [He|[lm Hl]].
  - rewrite He, lookup_empty in Hb. discriminate.
  - rewrite Hl in Hb. destruct (tracked_dec idx) as [Hin|Hn].
    + rewrite (snapshot_lookup lm ∅ idx Hin) in Hb. injection Hb as <-.
      split; [exact Hin|]. unfold zone_around, dead_zone.
      destruct (lm idx) as [x y]. simpl. lia.
    + rewrite (snapshot_lookup_other lm ∅ idx Hn), lookup_empty in Hb.
      discriminate.
Qed.

Lemma reachable_boxes_shape_witness :
  reachable false 0%Q just_calibrated /\
  (forall idx b,
      pink_boxes just_calibrated !! idx = Some b ->
      In idx tracked_idxs_x /\
      box_right b = box_left b + 40 /\ box_bottom b = box_top b + 40).
Proof.
  split; [exact just_calibrated_reachable|].
  apply (reachable_boxes_shape false 0%Q just_calibrated just_calibrated_reachable).
Defined.

Lemma scrolls_flag (b : bool) d d' :
  scrolls d (if b then [Scroll d'] else []) =
    if b && Direction_eqb d d' then 1%nat else 0%nat.
Proof. destruct b; [|reflexivity]. unfold scrolls. simpl. now destruct (Direction_eqb d d'). Qed.

(** X7. In a reachable state the left and the right conditions never
    hold together, so no frame emits both a left and a right action. *)
Theorem left_right_exclusive :
  forall (vo : bool) (t0 : Q) (s : State),
    reachable vo t0 s ->
    (forall lm c,
        gaze_conditions (pink_boxes s) lm = Some c ->
        c_left c && c_right c = false) /\
    (forall f s' acts,
        frame_step s f = Some (s', acts) ->
        (scrolls Left acts + scrolls Right acts <= 1)%nat).
Proof.
  intros vo t0 s Hr.
  assert (Hex : forall lm c,
             gaze_conditions (pink_boxes s) lm = Some c ->
             c_left c && c_right c = false).
  { intros lm c Hc.
    destruct (reachable_boxes_shape_aux vo t0 s Hr) as [He|[lm0 Hl]].
    - pose proof (gaze_conditions_present _ _ _ Hc forehead_idx) as [b Hb];
        [simpl; tauto|].
      rewrite He, lookup_empty in Hb. discriminate.
    - rewrite Hl in Hc.
      rewrite (gaze_conditions_eq _ lm (zone_around (lm0 forehead_idx))
                 (zone_around (lm0 chin_idx)) (zone_around (lm0 168))) in Hc
        by (apply snapshot_lookup; simpl; tauto).
      injection Hc as <-. simpl.
      destruct (lm0 forehead_idx) as [x1 y1], (lm0 chin_idx) as [x2 y2],
               (lm0 168) as [x3 y3].
      unfold zone_around, dead_zone. simpl.
      set (m := mean_int _).
      destruct (Z.ltb_spec m (Z.min (Z.min (x1 - 20) (x2 - 20)) (x3 - 20)));
        [|reflexivity].
      simpl. rewrite Z.gtb_ltb. apply Z.ltb_ge. lia. }
  split; [exact Hex|].
  intros f s' acts Hstep.
  destruct (frame_acts_cases s s' f acts Hstep)
    as (bl & br & bu & bd & -> & Hwhy).
  rewrite !scrolls_app, !scrolls_flag. simpl. rewrite !andb_false_r, !andb_true_r.
  destruct bl, br; simpl; try lia.
  destruct (Hwhy eq_refl) as (_ & _ & lm & c & _ & Hc & Hl & Hrt & _).
  specialize (Hex lm c Hc). rewrite (Hl eq_refl), (Hrt eq_refl) in Hex.
  discriminate.
Qed.

Lemma left_right_exclusive_witness :
  reachable false 0%Q just_calibrated /\
  (forall lm c,
      gaze_conditions (pink_boxes just_calibrated) lm = Some c ->
      c_left c && c_right c = false).
Proof.
  split; [exact just_calibrated_reachable|].
  apply (left_right_exclusive false 0%Q just_calibrated just_calibrated_reachable).
Defined.

Lemma frame_step_calibration_fields s f s' a :
  frame_step s f = Some (s', a) ->
  (recalibrated s' = recalibrated s /\ calibration_start s' = calibration_start s) \/
  (recalibrated s = false /\ recalibrated s' = false /\ calibration_start s = None) \/
  (recalibrated s' = true /\ calibration_start s' = None).
Proof.
  intros Hstep. destruct (face f) as [lm|] eqn:Hface.
  - rewrite (frame_step_face s f lm Hface) in Hstep.
    destruct (recalibrated s) eqn:Hrec; simpl in Hstep.
    + apply track_inv in Hstep as (conds & inside & _ & _ & -> & _).
      left.
      match goal with
      | |- context [auto_recalibrate ?a ?b ?c ?x] =>
          destruct (auto_recalibrate_keeps a b c x) as (_ & -> & -> & _)
      end.
      rewrite seen_eq. simpl. now split.
    + injection Hstep as <- _. unfold calibrate. rewrite seen_eq. simpl.
      destruct (calibration_start s) as [cs|] eqn:Hcs.
      * destruct (Qle_bool _ _); simpl; [right; right; now split|].
        left. now split.
      * simpl. right. left. now split.
  - rewrite (frame_step_no_face s f Hface) in Hstep.
    injection Hstep as <- _. left. rewrite sleep_check_keeps. now split.
Qed.

(** X8. In every reachable state, a calibrated state has no pending
    calibration timer: [recalibrated] true implies [calibration_start]
    unset. *)
Theorem calibrated_has_no_pending_start :
  forall (vo : bool) (t0 : Q) (s : State),
    reachable vo t0 s ->
    recalibrated s = true -> calibration_start s = None.
Proof.
  intros vo t0 s (evs & acts & _ & Hrun).
  apply (run_invariant
           (fun s => recalibrated s = true -> calibration_start s = None) vo)
    with (evs := evs) (s := init_state t0) (acts := acts).
  - intros s0 f s' a H0 Hstep Hrec.
    destruct (frame_step_calibration_fields s0 f s' a Hstep)
      as [[Hr Hc]|[(_ & Hr & _)|[_ Hc]]].
    + rewrite Hc. apply H0. congruence.
    + congruence.
    + exact Hc.
  - intros now text s0 H0. unfold voice_command.
    destruct (lower text); [exact H0|].
    repeat (destruct (any_in _ _); [simpl; try exact H0; discriminate|]).
    destruct (_ && _); exact H0.
  - discriminate.
  - exact Hrun.
Qed.

Lemma calibrated_has_no_pending_start_witness :
  reachable false 0%Q just_calibrated /\ calibration_start just_calibrated = None.
Proof.
  split; [exact just_calibrated_reachable|].
  apply (calibrated_has_no_pending_start false 0%Q just_calibrated
           just_calibrated_reachable).
  reflexivity.
Defined.

(** ** Timers of the debouncer *)

Lemma debounce_consistent e t c ds :
  timers_consistent ds -> timers_consistent (fst (debounce e t c ds)).
Proof.
  intros H. destruct e; [|exact H]. destruct c.
  - destruct (start_time ds) as [st|] eqn:Hst.
    + rewrite (debounce_held _ _ _ Hst). unfold sustain_threshold.
      destruct (Qle_bool 1 (t - st)) eqn:E1; simpl; [|exact H].
      destruct (Qle_bool scroll_delay _); simpl; [|exact H].
      unfold timers_consistent. simpl. right.
      apply Qle_bool_iff in E1. lra.
    + rewrite (debounce_rising _ _ Hst). unfold timers_consistent. simpl.
      now left.
  - rewrite debounce_release. exact I.
Qed.

Lemma frame_step_scroll_state s f s' a :
  frame_step s f = Some (s', a) ->
  scroll_state s' = scroll_state s \/
  exists conds,
    scroll_state s' =
      fst (scroll_frame (scroll_enabled s) (current_time f) conds (scroll_state s)).
Proof.
  intros Hstep. destruct (face f) as [lm|] eqn:Hface.
  - rewrite (frame_step_face s f lm Hface) in Hstep.
    destruct (negb (recalibrated s)).
    + injection Hstep as <- _. left.
      destruct (calibrate_keeps f lm (seen f s)) as (_ & _ & _ & _ & ->).
      now rewrite seen_eq.
    + apply track_inv in Hstep as (conds & inside & _ & _ & -> & _).
      right. exists conds.
      match goal with
      | |- context [auto_recalibrate ?a ?b ?c ?x] =>
          destruct (auto_recalibrate_keeps a b c x) as (_ & _ & _ & _ & _ & ->)
      end.
      now rewrite seen_eq.
  - rewrite (frame_step_no_face s f Hface) in Hstep.
    injection Hstep as <- _. left. now rewrite sleep_check_keeps.
Qed.

(** X9. In every reachable state and for each direction: while
    [start_time] is set, [last_scroll_time] is that start time or at
    least 1.0 s after it. *)
Theorem reachable_timers_consistent :
  forall (vo : bool) (t0 : Q) (s : State) (d : Direction),
    reachable vo t0 s ->
    match start_time (get_dir d (scroll_state s)) with
    | Some st =>
        last_scroll_time (get_dir d (scroll_state s)) = st \/
        (st + 1 <= last_scroll_time (get_dir d (scroll_state s)))%Q
    | None => True
    end.
Proof.
  intros vo t0 s d (evs & acts & _ & Hrun).
  change (timers_consistent (get_dir d (scroll_state s))).
  apply (run_invariant
           (fun s => timers_consistent (get_dir d (scroll_state s))) vo)
    with (evs := evs) (s := init_state t0) (acts := acts).
  - intros s0 f s' a H0 Hstep.
    destruct (frame_step_scroll_state s0 f s' a Hstep) as [->|[conds ->]];
      [exact H0|].
    destruct (scroll_frame_dir (scroll_enabled s0) (current_time f) conds
                (scroll_state s0) d) as [-> _].
    now apply debounce_consistent.
  - intros now text s0 H0.
    destruct (voice_command_keeps vo now text s0) as (_ & _ & _ & _ & -> & _).
    exact H0.
  - now destruct d.
  - exact Hrun.
Qed.

(** After the calibration, a frame at t = 3 with the head to the left. *)
Lemma reachable_timers_consistent_witness :
  exists s,
    reachable false 0%Q s /\
    start_time (get_dir Left (scroll_state s)) = Some 3%Q /\
    (last_scroll_time (get_dir Left (scroll_state s)) = 3%Q \/
     (3 + 1 <= last_scroll_time (get_dir Left (scroll_state s)))%Q).
Proof.
  destruct (run false (init_state 0%Q)
              (calibrating_events ++ [EvFrame (mkFrame 3%Q (Some (head_at 60)) 3%Q)]))
    as [[s acts]|] eqn:E; [|vm_compute in E; discriminate E].
  assert (Hr : reachable false 0%Q s).
  { exists (calibrating_events ++ [EvFrame (mkFrame 3%Q (Some (head_at 60)) 3%Q)]), acts.
    split; [reflexivity | exact E]. }
  pose proof (reachable_timers_consistent false 0%Q s Left Hr) as H.
  assert (Hst : start_time (get_dir Left (scroll_state s)) = Some 3%Q).
  { vm_compute in E. injection E as <- _. reflexivity. }
  rewrite Hst in H. exists s. split; [exact Hr|]. split; [exact Hst | exact H].
Defined.

Lemma emission_times_held d st : forall hold ss,
  Forall (fun f => cond_of d (snd f) = true) hold ->
  start_time (get_dir d ss) = Some st ->
  spaced st (last_scroll_time (get_dir d ss)) (emission_times d true hold ss).
Proof.
  induction hold as [|[t c] hold IH]; intros ss Hall Hst; [exact I|].
  inversion Hall as [|? ? Hc Hrest]; subst. simpl in Hc.
  cbn [emission_times].
  destruct (scroll_frame_dir true t c ss d) as [Hget Hcount].
  destruct (scroll_frame true t c ss) as [ss1 a1]. simpl in Hget, Hcount.
  rewrite Hcount, Hc, (debounce_held _ _ _ Hst).
  rewrite Hc, (debounce_held _ _ _ Hst) in Hget.
  unfold sustain_threshold, scroll_delay in *.
  destruct (Qle_bool 1 (t - st)) eqn:E1; simpl in *.
  - destruct (Qle_bool (3 # 10) (t - last_scroll_time (get_dir d ss))) eqn:E2;
      simpl in *.
    + apply Qle_bool_iff in E1, E2.
      split; [lra|]. split; [lra|].
      replace t with (last_scroll_time (get_dir d ss1)) at 1 by now rewrite Hget.
      apply IH; [exact Hrest | now rewrite Hget].
    + rewrite <- Hget. apply IH; [exact Hrest | now rewrite Hget].
  - rewrite <- Hget. apply IH; [exact Hrest | now rewrite Hget].
Qed.

(** X10. Rate limit of a hold. With scrolling enabled and the start time
    of [d] unset, if the condition of [d] is true on the frame at [t0]
    and on all the frames [hold] after it, the actions for [d] are
    emitted at [t0] and then at times each at least 1.0 s after [t0] and
    at least 0.3 s after the previous emission. *)
Theorem hold_emissions_spaced :
  forall (d : Direction) (t0 : Q) (c0 : Conds) (hold : list (Q * Conds))
         (ss : ScrollState),
    start_time (get_dir d ss) = None ->
    cond_of d c0 = true ->
    Forall (fun f => cond_of d (snd f) = true) hold ->
    exists ts,
      emission_times d true ((t0, c0) :: hold) ss = t0 :: ts /\
      spaced t0 t0 ts.
Proof.
  intros d t0 c0 hold ss Hidle Hc0 Hhold.
  cbn [emission_times].
  destruct (scroll_frame_dir true t0 c0 ss d) as [Hget Hcount].
  destruct (scroll_frame true t0 c0 ss) as [ss1 a1]. simpl in Hget, Hcount.
  rewrite Hc0, (debounce_rising _ _ Hidle) in Hget, Hcount. simpl in Hget, Hcount.
  rewrite Hcount. simpl.
  exists (emission_times d true hold ss1). split; [reflexivity|].
  replace t0 with (last_scroll_time (get_dir d ss1)) at 2 by now rewrite Hget.
  apply emission_times_held; [exact Hhold | now rewrite Hget].
Qed.

(** Frames every 0.25 s from 0 to 2: emissions at 0, 1.0, 1.5 and 2.0. *)
Lemma hold_emissions_spaced_witness :
  let held := mkConds true false false false in
  let hold := List.map (fun t => (t, held))
                [1 # 4; 1 # 2; 3 # 4; 1; 5 # 4; 3 # 2; 7 # 4; 2]%Q in
  emission_times Left true ((0%Q, held) :: hold) scroll_state_init
    = [0; 1; 3 # 2; 2]%Q /\
  exists ts,
    emission_times Left true ((0%Q, held) :: hold) scroll_state_init = 0%Q :: ts /\
    spaced 0%Q 0%Q ts.
Proof.
  intros held hold. split; [reflexivity|].
  apply (hold_emissions_spaced Left 0%Q held hold scroll_state_init).
  - reflexivity.
  - reflexivity.
  - repeat constructor.
Defined.

(** ** Who writes what *)

Lemma frame_step_scroll_enabled s f s' a :
  frame_step s f = Some (s', a) -> scroll_enabled s' = scroll_enabled s.
Proof.
  intros Hstep. destruct (face f) as [lm|] eqn:Hface.
  - rewrite (frame_step_face s f lm Hface) in Hstep.
    destruct (negb (recalibrated s)).
    + injection Hstep as <- _.
      destruct (calibrate_keeps f lm (seen f s)) as (-> & _).
      now rewrite seen_eq.
    + apply track_inv in Hstep as (conds & inside & _ & _ & -> & _).
      match goal with
      | |- context [auto_recalibrate ?a ?b ?c ?x] =>
          destruct (auto_recalibrate_keeps a b c x) as (-> & _)
      end.
      now rewrite seen_eq.
  - rewrite (frame_step_no_face s f Hface) in Hstep.
    injection Hstep as <- _. now rewrite sleep_check_keeps.
Qed.

Lemma zooms_app a b : zooms (a ++ b) = (zooms a + zooms b)%nat.
Proof. unfold zooms. now rewrite List.filter_app, List.length_app. Qed.

Lemma frame_step_no_zoom s f s' a :
  frame_step s f = Some (s', a) -> zooms a = 0%nat.
Proof.
  intros Hstep.
  destruct (frame_acts_cases s s' f a Hstep) as (bl & br & bu & bd & -> & _).
  now destruct bl, br, bu, bd.
Qed.

(** X11. The video loop never writes [scroll_enabled] and never zooms:
    over any run made of frames only, [scroll_enabled] keeps its value
    and no zoom action is emitted. Only utterances switch scrolling. *)
Theorem frames_keep_scroll_enabled :
  forall (vo : bool) (evs : list Event) (s s' : State) (acts : list Action),
    frames_only evs = true ->
    run vo s evs = Some (s', acts) ->
    scroll_enabled s' = scroll_enabled s /\ zooms acts = 0%nat.
Proof.
  intros vo evs. induction evs as [|e evs IH]; intros s s' acts Hf Hrun.
  - simpl in Hrun. injection Hrun as <- <-. now split.
  - apply run_cons_inv in Hrun as (s1 & a1 & a2 & Hs & Hrest & ->).
    simpl in Hf. destruct e as [f|now text]; [|discriminate]. simpl in Hs, Hf.
    destruct (IH s1 s' a2 Hf Hrest) as [-> Hz].
    rewrite zooms_app, Hz, (frame_step_no_zoom s f s1 a1 Hs).
    split; [|reflexivity]. now apply (frame_step_scroll_enabled s f s1 a1).
Qed.

Lemma frames_keep_scroll_enabled_witness :
  exists s' acts,
    run false (init_state 0%Q) calibrating_events = Some (s', acts) /\
    scroll_enabled s' = true /\ zooms acts = 0%nat.
Proof.
  destruct (run false (init_state 0%Q) calibrating_events) as [[s' acts]|] eqn:E.
  - exists s', acts. split; [reflexivity|].
    apply (frames_keep_scroll_enabled false calibrating_events (init_state 0%Q)
             s' acts eq_refl E).
  - vm_compute in E. discriminate E.
Defined.

(** X12. In voice-only mode the video loop never runs, so a calibration
    never completes: in every reachable state [recalibrated] is false and
    [recalibration_timer_start] is unset. Utterances only write
    [scroll_enabled] and [calibration_start]. *)
Theorem voice_only_reachable :
  forall (t0 : Q) (s : State),
    reachable true t0 s ->
    recalibrated s = false /\ recalibration_timer_start s = None.
Proof.
  intros t0 s (evs & acts & Hadm & Hrun).
  assert (Hgen : forall evs s0 s1 acts,
             forallb (admissible true) evs = true ->
             run true s0 evs = Some (s1, acts) ->
             (recalibrated s0 = false -> recalibrated s1 = false) /\
             recalibration_timer_start s1 = recalibration_timer_start s0).
  { clear. intros evs. induction evs as [|e evs IH]; intros s0 s1 acts Hadm Hrun.
    - simpl in Hrun. injection Hrun as <- _. split; auto.
    - apply run_cons_inv in Hrun as (sm & a1 & a2 & Hs & Hrest & _).
      simpl in Hadm. destruct e as [f|now text]; [discriminate|].
      simpl in Hs, Hadm. injection Hs as Hv.
      destruct (IH sm s1 a2 Hadm Hrest) as (Hr & ->).
      destruct (voice_command_keeps true now text s0)
        as (_ & Ht & _ & _ & _ & Hrec).
      rewrite Hv in Ht, Hrec. simpl in *.
      split; [|exact Ht].
      intros H0. apply Hr. destruct Hrec; congruence. }
  destruct (Hgen evs (init_state t0) s acts Hadm Hrun) as (Hr & ->).
  split; [now apply Hr | reflexivity].
Qed.

Lemma voice_only_reachable_witness :
  exists s,
    reachable true 0%Q s /\ calibration_start s = Some 2%Q /\
    recalibrated s = false /\ recalibration_timer_start s = None.
Proof.
  destruct (run true (init_state 0%Q) [EvVoice 1%Q "up"; EvVoice 2%Q "calibrate"])
    as [[s acts]|] eqn:E; [|vm_compute in E; discriminate E].
  assert (Hr : reachable true 0%Q s).
  { exists [EvVoice 1%Q "up"; EvVoice 2%Q "calibrate"], acts.
    split; [reflexivity | exact E]. }
  exists s. split; [exact Hr|]. split.
  - vm_compute in E. injection E as <- _. reflexivity.
  - apply (voice_only_reachable 0%Q s Hr).
Defined.

(** X13. A released direction fires again on its next trigger, however
    soon: with scrolling enabled, a frame whose condition for [d] is true
    right after a frame whose condition was false emits exactly one
    action for [d] and restarts both timers, whatever the two times. *)
Theorem retrigger_is_not_rate_limited :
  forall (d : Direction) (t t' : Q) (c c' : Conds) (ss : ScrollState),
    cond_of d c = false ->
    cond_of d c' = true ->
    let r := scroll_frame true t' c' (fst (scroll_frame true t c ss)) in
    scrolls d (snd r) = 1%nat /\ get_dir d (fst r) = mkDirState (Some t') t'.
Proof.
  intros d t t' c c' ss Hc Hc' r. subst r.
  destruct (scroll_frame_dir true t' c' (fst (scroll_frame true t c ss)) d)
    as [-> ->].
  destruct (scroll_frame_dir true t c ss d) as [-> _].
  rewrite Hc, Hc', debounce_release.
  now rewrite debounce_rising.
Qed.

Lemma retrigger_is_not_rate_limited_witness :
  let neutral := mkConds false false false false in
  let down := mkConds false false false true in
  let ss := fst (scroll_frame true 0%Q down scroll_state_init) in
  scrolls Down
    (snd (scroll_frame true (2 # 100)%Q down
            (fst (scroll_frame true (1 # 100)%Q neutral ss)))) = 1%nat.
Proof.
  intros neutral down ss.
  apply (retrigger_is_not_rate_limited Down (1 # 100)%Q (2 # 100)%Q neutral down ss);
    reflexivity.
Defined.

(** ** Keyword matching *)

Lemma append_assoc (a b c : string) : ((a ++ b) ++ c = a ++ (b ++ c))%string.
Proof. induction a as [|x a IH]; [reflexivity|]. now rewrite !append_cons, IH. Qed.

Lemma contains_extend w c pre post :
  contains w c = true -> contains w (pre ++ c ++ post)%string = true.
Proof.
  rewrite !contains_spec. intros (p & q & ->).
  exists (pre ++ p)%string, (q ++ post)%string.
  now rewrite !append_assoc.
Qed.

(** X14. [any(word in command for word in words)] holds exactly when
    some word of the list occurs somewhere in the command (not as a
    whole word, and at any position); so a command that matches still
    matches when text is added before or after it. *)
Theorem any_in_substring :
  forall (words : list string) (command : string),
    (any_in words command = true <->
     exists w pre post, In w words /\ command = (pre ++ w ++ post)%string) /\
    (forall pre post,
        any_in words command = true ->
        any_in words (pre ++ command ++ post)%string = true).
Proof.
  intros words command. split.
  - rewrite any_in_spec. split.
    + intros (w & Hw & Hc). apply contains_spec in Hc as (pre & post & ->).
      now exists w, pre, post.
    + intros (w & pre & post & Hw & ->). exists w. split; [exact Hw|].
      apply contains_spec. now exists pre, post.
  - intros pre post. rewrite !any_in_spec. intros (w & Hw & Hc).
    exists w. split; [exact Hw|]. now apply contains_extend.
Qed.

Lemma same_letter_lower c c' :
  same_letter c c' = true -> lower_ascii c = lower_ascii c'.
Proof.
  unfold same_letter, lower_ascii.
  pose proof (ascii_nat_embedding c) as Hc.
  pose proof (ascii_nat_embedding c') as Hc'.
  set (n := nat_of_ascii c) in *. set (n' := nat_of_ascii c') in *.
  rewrite !orb_true_iff, !andb_true_iff, !Nat.eqb_eq, !Nat.leb_le.
  intros [[Heq|[[H1 H2] Heq]]|[[H1 H2] Heq]].
  - rewrite <- Hc, <- Hc', Heq. reflexivity.
  - replace ((65 <=? n)%nat && (n <=? 90)%nat) with true
      by (symmetry; apply andb_true_iff; split; apply Nat.leb_le; lia).
    replace ((65 <=? n')%nat && (n' <=? 90)%nat) with false
      by (symmetry; apply andb_false_iff; right; apply Nat.leb_gt; lia).
    now rewrite <- Hc', Heq.
  - replace ((65 <=? n')%nat && (n' <=? 90)%nat) with true
      by (symmetry; apply andb_true_iff; split; apply Nat.leb_le; lia).
    replace ((65 <=? n)%nat && (n <=? 90)%nat) with false
      by (symmetry; apply andb_false_iff; right; apply Nat.leb_gt; lia).
    now rewrite <- Hc, Heq.
Qed.

Lemma same_up_to_case_lower a : forall b,
  same_up_to_case a b = true -> lower a = lower b.
Proof.
  induction a as [|c a IH]; intros [|c' b] H; try discriminate H.
  - reflexivity.
  - cbn [same_up_to_case] in H. apply andb_true_iff in H as [Hc Hrest].
    cbn [lower]. now rewrite (same_letter_lower c c' Hc), (IH b Hrest).
Qed.

(** X15. The dispatcher ignores the case of ASCII letters: two
    transcripts that are equal up to the case of their letters (such as
    "Please STOP now" and "please stop now") are dispatched to the same
    state and the same actions. *)
Theorem dispatch_case_insensitive :
  forall (vo : bool) (now : Q) (text text' : string) (s : State),
    same_up_to_case text text' = true ->
    voice_command vo now text s = voice_command vo now text' s.
Proof.
  intros vo now text text' s H. unfold voice_command.
  now rewrite (same_up_to_case_lower text text' H).
Qed.

Lemma dispatch_case_insensitive_witness :
  same_up_to_case "Please STOP now" "please stop now" = true /\
  voice_command false 0%Q "Please STOP now" just_calibrated
  = voice_command false 0%Q "please stop now" just_calibrated /\
  voice_command false 0%Q "please stop now" just_calibrated
  = (set_scroll_enabled false just_calibrated, []).
Proof.
  split; [reflexivity|]. split; [|reflexivity].
  apply (dispatch_case_insensitive false 0%Q "Please STOP now" "please stop now"
           just_calibrated).
  reflexivity.
Defined.

Lemma st_lower : lower "st" = "st"%string.
Proof. reflexivity. Qed.

(** X16. Every transcript in which "st" occurs is dispatched as Stop or
    as Start: it only sets [scroll_enabled] and emits nothing. Hence a
    keyword of a later category that contains "st", such as "lost" and
    "listen" of the left list, never triggers its own category. *)
Theorem st_preempts_later_categories :
  forall (vo : bool) (now : Q) (text w : string) (s : State),
    (exists pre post, w = (pre ++ "st" ++ post)%string) ->
    (exists pre post, text = (pre ++ w ++ post)%string) ->
    exists b, voice_command vo now text s = (set_scroll_enabled b s, []).
Proof.
  intros vo now text w s (p1 & q1 & ->) (p2 & q2 & ->).
  assert (Hst : contains "st" (lower (p2 ++ (p1 ++ "st" ++ q1) ++ q2)) = true).
  { rewrite <- st_lower. apply contains_lower. apply contains_spec.
    exists (p2 ++ p1)%string, (q1 ++ q2)%string. now rewrite !append_assoc. }
  assert (Hstart : any_in start_words
                     (lower (p2 ++ (p1 ++ "st" ++ q1) ++ q2)) = true).
  { apply any_in_spec. exists "st"%string. split; [simpl; tauto | exact Hst]. }
  unfold voice_command.
  destruct (lower (p2 ++ (p1 ++ "st" ++ q1) ++ q2)) as [|a command] eqn:Hl.
  - discriminate Hst.
  - destruct (any_in stop_words (String a command)); [now exists false|].
    rewrite Hstart. now exists true.
Qed.

Lemma st_preempts_later_categories_witness :
  In "listen"%string left_words /\
  exists b,
    voice_command true 0%Q "listen" (init_state 0%Q)
    = (set_scroll_enabled b (init_state 0%Q), []).
Proof.
  split; [simpl; tauto|].
  apply (st_preempts_later_categories true 0%Q "listen" "listen" (init_state 0%Q)).
  - exists "li"%string, "en"%string. reflexivity.
  - exists ""%string, ""%string. reflexivity.
Defined.

(** ** The input simulator *)

Lemma wheel_total_app a b : wheel_total (a ++ b) = wheel_total a + wheel_total b.
Proof.
  induction a as [|i a IH]; simpl; [reflexivity|].
  destruct i; rewrite IH; lia.
Qed.

Lemma presses_app k a b : presses k (a ++ b) = (presses k a + presses k b)%nat.
Proof. unfold presses. now rewrite List.filter_app, List.length_app. Qed.

Lemma hotkeys_app a b : hotkeys (a ++ b) = (hotkeys a + hotkeys b)%nat.
Proof. unfold hotkeys. now rewrite List.filter_app, List.length_app. Qed.

(** X17. What a sequence of actions sends to the operating system: the
    net wheel displacement is 300 times the number of up actions minus
    the number of down actions; each left (right) action is three
    presses of the left (right) arrow key; each zoom action is one
    hotkey, and scroll actions send no hotkey. *)
Theorem os_inputs_totals :
  forall acts : list Action,
    wheel_total (os_inputs acts)
      = 300 * (Z.of_nat (scrolls Up acts) - Z.of_nat (scrolls Down acts)) /\
    presses "left" (os_inputs acts) = (3 * scrolls Left acts)%nat /\
    presses "right" (os_inputs acts) = (3 * scrolls Right acts)%nat /\
    hotkeys (os_inputs acts) = zooms acts.
Proof.
  induction acts as [|a acts (IHw & IHl & IHr & IHh)]; [now repeat split|].
  change (os_inputs (a :: acts)) with (perform a ++ os_inputs acts).
  change (a :: acts) with ([a] ++ acts).
  rewrite wheel_total_app, !presses_app, hotkeys_app, !scrolls_app, zooms_app.
  rewrite IHw, IHl, IHr, IHh.
  destruct a as [[]|[]]; vm_compute perform;
    repeat split; try reflexivity;
    unfold scrolls, zooms; simpl; lia.
Qed.

(** X18. [scroll_once] and [zoom_control] ignore a direction they do not
    know: they send nothing for any string other than their literal
    names (matching is exact, so "UP" is ignored), and every action of
    the model names a known direction and sends something. *)
Theorem unknown_direction_ignored :
  (forall d : string,
      scroll_once d = [] <->
      d <> "up"%string /\ d <> "down"%string /\
      d <> "left"%string /\ d <> "right"%string) /\
  (forall z : string,
      zoom_control z = [] <->
      z <> "in"%string /\ z <> "out"%string /\ z <> "reset"%string) /\
  (forall a : Action, perform a <> []).
Proof.
  split; [|split].
  - intros d. unfold scroll_once.
    destruct (String.eqb_spec d "up"); [split; [discriminate|tauto]|].
    destruct (String.eqb_spec d "down"); [split; [discriminate|tauto]|].
    destruct (String.eqb_spec d "left"); [split; [discriminate|tauto]|].
    destruct (String.eqb_spec d "right"); [split; [discriminate|tauto]|].
    tauto.
  - intros z. unfold zoom_control.
    destruct (String.eqb_spec z "in"); [split; [discriminate|tauto]|].
    destruct (String.eqb_spec z "out"); [split; [discriminate|tauto]|].
    destruct (String.eqb_spec z "reset"); [split; [discriminate|tauto]|].
    tauto.
  - intros [[]|[]]; discriminate.
Qed.

(** ** More on zones *)

(** X19. Snapshots compose by overwriting: a snapshot taken after
    another one is the same as taken alone, and a snapshot leaves every
    key other than the tracked indices as it was. *)
Theorem snapshot_overwrites_wholesale :
  forall (lm lm' : Landmarks) (pb : gmap Z Box),
    snapshot lm (snapshot lm' pb) = snapshot lm pb /\
    (forall idx, ~ In idx tracked_idxs_x -> snapshot lm pb !! idx = pb !! idx).
Proof.
  intros lm lm' pb. split; [apply snapshot_overwrite|].
  intros idx Hn. now apply snapshot_lookup_other.
Qed.

Lemma snapshot_self_inside lm pb :
  is_all_inside_boxes (snapshot lm pb) lm = Some true.
Proof.
  unfold is_all_inside_boxes. cbn [tracked_idxs_x inside_loop].
  rewrite !snapshot_lookup by (simpl; tauto). simpl.
  assert (H : forall p, in_box p (zone_around p) = true).
  { intros p. apply in_zone_around. rewrite !Z.sub_diag. simpl. lia. }
  now rewrite !H.
Qed.

(** X20. Right after a frame completes a calibration or an automatic
    recalibration, the face of that frame is neutral for the new zones:
    all its tracked landmarks are inside their boxes and none of the
    four trigger conditions holds. *)
Theorem calibration_makes_face_neutral :
  forall (s s' : State) (f : Frame) (lm : Landmarks) (acts : list Action),
    frame_step s f = Some (s', acts) ->
    face f = Some lm ->
    completes_calibration s f || completes_recalibration s f = true ->
    is_all_inside_boxes (pink_boxes s') lm = Some true /\
    gaze_conditions (pink_boxes s') lm = Some (mkConds false false false false).
Proof.
  intros s s' f lm acts Hstep Hface Hev.
  pose proof (frame_step_boxes s f s' acts Hstep) as Hb.
  rewrite Hface, Hev in Hb. rewrite Hb.
  pose proof (snapshot_self_inside lm (pink_boxes s)) as Hin.
  split; [exact Hin | now apply inside_no_trigger].
Qed.

Lemma calibration_makes_face_neutral_witness :
  let s := calibrated_at_100 true (Some 1%Q) in
  let f := mkFrame (9 # 2)%Q (Some (head_at 110)) (9 # 2)%Q in
  exists s' acts,
    frame_step s f = Some (s', acts) /\
    is_all_inside_boxes (pink_boxes s') (head_at 110) = Some true /\
    gaze_conditions (pink_boxes s') (head_at 110)
    = Some (mkConds false false false false).
Proof.
  intros s f.
  destruct (frame_step s f) as [[s' acts]|] eqn:E.
  - exists s', acts. split; [reflexivity|].
    apply (calibration_makes_face_neutral s s' f (head_at 110) acts E);
      reflexivity.
  - vm_compute in E. discriminate E.
Defined.

(** X21. The horizontal thresholds after a snapshot on [lm0]: with [lo]
    and [hi] the smallest and largest calibrated x of the tracked
    landmarks, the left condition holds when every tracked landmark is
    more than 20 pixels left of [lo], and only when at least one is;
    likewise on the right with [hi]. *)
Theorem horizontal_thresholds :
  forall (pb : gmap Z Box) (lm0 lm : Landmarks),
    let lo := Z.min (Z.min (fst (lm0 forehead_idx)) (fst (lm0 chin_idx)))
                (fst (lm0 168)) in
    let hi := Z.max (Z.max (fst (lm0 forehead_idx)) (fst (lm0 chin_idx)))
                (fst (lm0 168)) in
    exists c,
      gaze_conditions (snapshot lm0 pb) lm = Some c /\
      ((forall idx, In idx tracked_idxs_x -> fst (lm idx) < lo - 20) ->
       c_left c = true) /\
      (c_left c = true ->
       exists idx, In idx tracked_idxs_x /\ fst (lm idx) < lo - 20) /\
      ((forall idx, In idx tracked_idxs_x -> hi + 20 < fst (lm idx)) ->
       c_right c = true) /\
      (c_right c = true ->
       exists idx, In idx tracked_idxs_x /\ hi + 20 < fst (lm idx)).
Proof.
  intros pb lm0 lm lo hi.
  rewrite (gaze_conditions_eq _ lm (zone_around (lm0 forehead_idx))
             (zone_around (lm0 chin_idx)) (zone_around (lm0 168)))
    by (apply snapshot_lookup; simpl; tauto).
  eexists. split; [reflexivity|]. simpl.
  set (xs := [fst (lm forehead_idx); fst (lm chin_idx); fst (lm 168)]).
  assert (Hol : Z.min (Z.min (box_left (zone_around (lm0 forehead_idx)))
                         (box_left (zone_around (lm0 chin_idx))))
                  (box_left (zone_around (lm0 168))) = lo - 20).
  { subst lo. destruct (lm0 forehead_idx), (lm0 chin_idx), (lm0 168).
    unfold zone_around, dead_zone. simpl. lia. }
  assert (Hor : Z.max (Z.max (box_right (zone_around (lm0 forehead_idx)))
                         (box_right (zone_around (lm0 chin_idx))))
                  (box_right (zone_around (lm0 168))) = hi + 20).
  { subst hi. destruct (lm0 forehead_idx), (lm0 chin_idx), (lm0 168).
    unfold zone_around, dead_zone. simpl. lia. }
  rewrite Hol, Hor. clearbody lo hi.
  assert (Hfar : forall a b,
             (forall idx, In idx tracked_idxs_x -> a <= fst (lm idx) <= b) ->
             a <= mean_int xs <= b).
  { intros a b H. apply mean_int_bounds; [discriminate|].
    subst xs. intros x [<-|[<-|[<-|[]]]]; apply H; simpl; tauto. }
  assert (Hxs : forall (P : Z -> Prop),
             (forall x, {P x} + {~ P x}) ->
             (exists idx, In idx tracked_idxs_x /\ P (fst (lm idx))) \/
             (forall idx, In idx tracked_idxs_x -> ~ P (fst (lm idx)))).
  { intros P Pdec.
    destruct (Pdec (fst (lm forehead_idx))) as [H1|H1];
      [left; exists forehead_idx; simpl; tauto|].
    destruct (Pdec (fst (lm chin_idx))) as [H2|H2];
      [left; exists chin_idx; simpl; tauto|].
    destruct (Pdec (fst (lm 168))) as [H3|H3];
      [left; exists 168; simpl; tauto|].
    right. intros idx [<-|[<-|[<-|[]]]]; assumption. }
  set (m := mean_int xs) in *.
  set (big := Z.max (Z.abs (fst (lm forehead_idx)))
                (Z.max (Z.abs (fst (lm chin_idx))) (Z.abs (fst (lm 168))))).
  assert (Hbig : forall idx, In idx tracked_idxs_x ->
                             - big <= fst (lm idx) <= big).
  { subst big. intros idx [<-|[<-|[<-|[]]]]; lia. }
  repeat split.
  - intros H. apply Z.ltb_lt.
    assert (- big <= m <= lo - 21); [|lia].
    apply Hfar. intros idx Hin. specialize (H idx Hin).
    specialize (Hbig idx Hin). lia.
  - intros H. apply Z.ltb_lt in H.
    destruct (Hxs (fun x => x < lo - 20) (fun x => Z_lt_dec x (lo - 20)))
      as [Hex|Hall]; [exact Hex|].
    assert (lo - 20 <= m <= big); [|lia].
    apply Hfar. intros idx Hin. specialize (Hall idx Hin).
    specialize (Hbig idx Hin). lia.
  - intros H. rewrite Z.gtb_ltb. apply Z.ltb_lt.
    assert (hi + 21 <= m <= big); [|lia].
    apply Hfar. intros idx Hin. specialize (H idx Hin).
    specialize (Hbig idx Hin). lia.
  - intros H. rewrite Z.gtb_ltb in H. apply Z.ltb_lt in H.
    destruct (Hxs (fun x => hi + 20 < x) (fun x => Z_lt_dec (hi + 20) x))
      as [Hex|Hall]; [exact Hex|].
    assert (- big <= m <= hi + 20); [|lia].
    apply Hfar. intros idx Hin. specialize (Hall idx Hin).
    specialize (Hbig idx Hin). lia.
Qed.

(** X22. When [is_all_inside_boxes] fails on a missing key, some tracked
    landmark has no box; but it answers false, without reading the
    remaining boxes, as soon as a landmark is outside its box, even if a
    later box is missing. *)
Theorem inside_loop_missing_key :
  forall (pb : gmap Z Box) (lm : Landmarks),
    (is_all_inside_boxes pb lm = None ->
     exists idx, In idx tracked_idxs_x /\ pb !! idx = None) /\
    (forall b,
        pb !! forehead_idx = Some b ->
        in_box (lm forehead_idx) b = false ->
        is_all_inside_boxes pb lm = Some false).
Proof.
  intros pb lm. split.
  - intros Hnone.
    destruct (pb !! forehead_idx) as [bf|] eqn:Hf;
      [|exists forehead_idx; simpl; tauto].
    destruct (pb !! chin_idx) as [bc|] eqn:Hc;
      [|exists chin_idx; simpl; tauto].
    destruct (pb !! 168) as [bm|] eqn:Hm; [|exists 168; simpl; tauto].
    assert (Hp : boxes_present pb).
    { intros idx [<-|[<-|[<-|[]]]]; eauto. }
    destruct (is_all_inside_boxes_Some pb lm Hp) as [b Hb]. congruence.
  - intros b Hb Hout. unfold is_all_inside_boxes.
    cbn [tracked_idxs_x inside_loop]. rewrite Hb. simpl. now rewrite Hout.
Qed.

(** X23. Start comes right after Stop: a transcript in which a Start
    keyword occurs and no Stop keyword does sets [scroll_enabled] to
    true, changes nothing else and emits nothing, whatever keywords of
    later categories it also contains. *)
Theorem start_keyword_enables_scrolling :
  forall (vo : bool) (now : Q) (text w : string) (s : State),
    any_in stop_words (lower text) = false ->
    In w start_words ->
    (exists pre post, text = (pre ++ w ++ post)%string) ->
    voice_command vo now text s = (set_scroll_enabled true s, []).
Proof.
  intros vo now text w s Hstop Hw Hsub.
  apply contains_spec in Hsub.
  assert (Hlow : lower w = w).
  { destruct Hw as [<-|[<-|[<-|[<-|[<-|[<-|[<-|[<-|[]]]]]]]]]; reflexivity. }
  assert (Hany : any_in start_words (lower text) = true).
  { apply any_in_spec. exists w. split; [exact Hw|].
    rewrite <- Hlow. now apply contains_lower. }
  unfold voice_command. destruct (lower text) as [|a command] eqn:Hl.
  - discriminate Hany.
  - now rewrite Hstop, Hany.
Qed.

Lemma start_keyword_enables_scrolling_witness :
  voice_command false 0%Q "resume and zoom in"
    (set_scroll_enabled false (init_state 0%Q))
  = (set_scroll_enabled true (set_scroll_enabled false (init_state 0%Q)), []).
Proof.
  apply (start_keyword_enables_scrolling false 0%Q "resume and zoom in" "resume"
           (set_scroll_enabled false (init_state 0%Q))).
  - reflexivity.
  - simpl. tauto.
  - exists ""%string, " and zoom in"%string. reflexivity.
Defined.
